(** * Tic-tac-toe online: the game engine and the room endpoints of app.py

    A shallow embedding of [tic-tak online/app.py]: the class
    [TicTacToeGame] (board, turn, winner, statistics notification) and the
    Flask routes that drive rooms and games over the module-level
    dictionaries [games], [rooms], [ACTIVE_SESSIONS] and
    [game_completion_times].

    Python values are modelled as follows.
    - A Python [int] is a [Z]; [None] next to an int is [option Z].
    - A Python list is a [list]; indexing follows Python: an index [i] with
      [-len <= i < len] is valid (negative ones count from the end), any
      other index raises [IndexError].
    - A dict keyed by strings is a [gmap string _].
    - An exception is the [Raise] branch of the result type [res].
    - The cell indices of a move arrive in the JSON body of the request
      and are not checked before they index the board.  Most of this file
      follows the moves whose indices are integers; [value] below is the
      whole range of what the body can hold, and
      [TicTacToeGame.make_move_json] is the method on that range.
    - [time.time()] and [uuid.uuid4()] are inputs of the routes that read
      them; time is counted in whole units. *)

From Stdlib Require Import ZArith String Bool Lia.
From stdpp Require Import base option numbers list strings gmap.

Local Open Scope string_scope.
Local Open Scope list_scope.
Local Open Scope Z_scope.

(** ** Exceptions and results *)

Inductive exn := IndexError | KeyError | TypeError.

Inductive res (A : Type) :=
| Ok (a : A)
| Raise (e : exn).
Arguments Ok {A} a.
Arguments Raise {A} e.

#[global] Instance res_ret : MRet res := λ A a, Ok a.
#[global] Instance res_bind : MBind res := λ A B k m,
  match m with
  | Ok a => k a
  | Raise e => Raise e
  end.

(** ** Python list indexing *)

(** The position a Python index denotes in a list of length [n]. *)
Definition py_index (n : nat) (i : Z) : option nat :=
  if bool_decide (0 ≤ i < Z.of_nat n) then Some (Z.to_nat i)
  else if bool_decide (- Z.of_nat n ≤ i < 0) then Some (Z.to_nat (i + Z.of_nat n))
  else None.

(** [l[i]] *)
Definition getitem {A} (l : list A) (i : Z) : res A :=
  match py_index (length l) i ≫= (l !!.) with
  | Some x => Ok x
  | None => Raise IndexError
  end.

(** [l[i] = x] *)
Definition setitem {A} (l : list A) (i : Z) (x : A) : res (list A) :=
  match py_index (length l) i with
  | Some k => Ok (<[k:=x]> l)
  | None => Raise IndexError
  end.

(** What [json] decodes a value of a request body to: [None], a [bool],
    an [int], a [float], a [str], a [list] or a [dict].  Of a float, a
    list and a dict only the type matters here. *)
Inductive value :=
| VNone
| VBool (b : bool)
| VInt (i : Z)
| VFloat
| VStr (s : string)
| VList
| VDict.

(** The integer a value stands for as the index of a list: an [int] is
    itself, a [bool] is the int 1 or 0; with any other value the
    subscription raises [TypeError]. *)
Definition as_index (v : value) : res Z :=
  match v with
  | VInt i => Ok i
  | VBool b => Ok (Z.b2z b)
  | VNone | VFloat | VStr _ | VList | VDict => Raise TypeError
  end.

(** [l[v]] *)
Definition getitem_value {A} (l : list A) (v : value) : res A :=
  i ← as_index v; getitem l i.

(** [l[v] = x] *)
Definition setitem_value {A} (l : list A) (v : value) (x : A) : res (list A) :=
  i ← as_index v; setitem l i x.

(** [all(f(x) for x in xs)]: stops at the first false element. *)
Fixpoint all_ {A} (f : A → res bool) (xs : list A) : res bool :=
  match xs with
  | [] => Ok true
  | x :: xs' => b ← f x; if b : bool then all_ f xs' else Ok false
  end.

(** [a or b]: [b] is looked at only when [a] is false. *)
Definition or_ (a b : res bool) : res bool :=
  x ← a; if x : bool then Ok true else b.

(** [range(3)] *)
Definition range3 : list Z := [0; 1; 2].

(** ** The statistics store (users.json) *)

(** The [result] argument of [update_user_stats]: 'win', 'loss', 'draw'. *)
Inductive result := win | loss | draw.

(** One call [update_user_stats(username, result)]. *)
Definition notification : Type := string * result.

Record user := {
  password : string;
  wins : Z;
  losses : Z;
  draws : Z;
  games_played : option Z   (* read with .get('games_played', 0) *)
}.

Definition update_user_stats (username : string) (r : result)
    (users : gmap string user) : gmap string user :=
  match users !! username with
  | None => users
  | Some u =>
      let u1 :=
        match r with
        | win => {| password := password u; wins := wins u + 1; losses := losses u;
                    draws := draws u; games_played := games_played u |}
        | loss => {| password := password u; wins := wins u; losses := losses u + 1;
                     draws := draws u; games_played := games_played u |}
        | draw => {| password := password u; wins := wins u; losses := losses u;
                     draws := draws u + 1; games_played := games_played u |}
        end in
      <[username := {| password := password u1; wins := wins u1; losses := losses u1;
                       draws := draws u1;
                       games_played := Some (default 0 (games_played u1) + 1) |}]> users
  end.

(** The calls of one [update_stats], applied to the store in order. *)
Definition record_all (ns : list notification) (users : gmap string user) : gmap string user :=
  foldl (λ us n, update_user_stats n.1 n.2 us) users ns.

(** ** class TicTacToeGame *)

Module TicTacToeGame.

(** An entry of [self.players]: [{'id': .., 'username': ..}]. *)
Record player := { id : Z; username : string }.

(** [self.winner] when it is not [None]: a player id or 'draw'. *)
Inductive winner_value := Player (p : Z) | Draw.

#[global] Instance winner_value_eq_dec : EqDecision winner_value.
Proof. solve_decision. Defined.

Record t := {
  board : list (list string);
  players : list player;
  current_player : Z;
  game_id : string;
  winner : option winner_value;
  game_over : bool
}.

(** The empty cell, [''] *)
Definition blank : string := EmptyString.

(** [__init__] *)
Definition init (game_id : string) : t :=
  {| board := replicate 3 (replicate 3 blank);
     players := [];
     current_player := 0;
     game_id := game_id;
     winner := None;
     game_over := false |}.

(** [add_player]: the new list of players and the value returned. *)
Definition add_player (self : t) (username : string) : t * option Z :=
  if bool_decide (Z.of_nat (length (players self)) < 2) then
    let player_id := Z.of_nat (length (players self)) in
    ({| board := board self;
        players := players self ++ [{| id := player_id; username := username |}];
        current_player := current_player self;
        game_id := game_id self;
        winner := winner self;
        game_over := game_over self |}, Some player_id)
  else (self, None).

(** [self.board[r][c]] *)
Definition cell (b : list (list string)) (r c : Z) : res string :=
  row ← getitem b r; getitem row c.

(** [self.board[r][c] == symbol] *)
Definition cell_is (b : list (list string)) (symbol : string) (r c : Z) : res bool :=
  x ← cell b r c; Ok (bool_decide (x = symbol)).

(** The loop [for i in range(3)] of [check_winner], over the remaining
    values of [i]: true as soon as row [i] or column [i] is complete. *)
Fixpoint check_rows_cols (b : list (list string)) (symbol : string) (rest : list Z) : res bool :=
  match rest with
  | [] => Ok false
  | i :: rest' =>
      hit ← or_ (all_ (λ j, cell_is b symbol i j) range3)
                (all_ (λ j, cell_is b symbol j i) range3);
      if hit : bool then Ok true else check_rows_cols b symbol rest'
  end.

(** [check_winner], on the board alone. *)
Definition check_winner_board (b : list (list string)) (symbol : string) : res bool :=
  hit ← check_rows_cols b symbol range3;
  if hit : bool then Ok true
  else
    diag ← or_ (all_ (λ i, cell_is b symbol i i) range3)
               (all_ (λ i, cell_is b symbol i (2 - i)) range3);
    if diag : bool then Ok true else Ok false.

Definition check_winner (self : t) (symbol : string) : res bool :=
  check_winner_board (board self) symbol.

(** [all(self.board[i][j] != '' for i in range(3) for j in range(3))] *)
Definition board_full (b : list (list string)) : res bool :=
  all_ (λ ij : Z * Z, x ← cell b ij.1 ij.2; Ok (bool_decide (x ≠ blank)))
       (i ← range3; j ← range3; [(i, j)]).

(** [update_stats]: the calls to [update_user_stats] it makes, in order. *)
Definition update_stats (self : t) : list notification :=
  if bool_decide (winner self = Some Draw) then
    map (λ p, (username p, draw)) (players self)
  else
    map (λ p, if bool_decide (Some (Player (id p)) = winner self)
              then (username p, win) else (username p, loss))
        (players self).

(** Attribute assignments. *)
Definition set_board (self : t) (b : list (list string)) : t :=
  {| board := b; players := players self; current_player := current_player self;
     game_id := game_id self; winner := winner self; game_over := game_over self |}.

Definition set_current_player (self : t) (p : Z) : t :=
  {| board := board self; players := players self; current_player := p;
     game_id := game_id self; winner := winner self; game_over := game_over self |}.

(** [self.winner = w; self.game_over = True] *)
Definition finish (self : t) (w : option winner_value) : t :=
  {| board := board self; players := players self; current_player := current_player self;
     game_id := game_id self; winner := w; game_over := true |}.

(** [make_move]: the value returned, the object afterwards and the calls
    to [update_user_stats] made on the way.  [player_id] is [None] when
    the route passes Python's [None].  The three tests of the guard are
    evaluated left to right, so the board is indexed only for a game in
    progress and the player to move.  The rows of the board are distinct
    list objects, so writing a cell changes one row only. *)
Definition make_move (self : t) (player_id : option Z) (row col : Z)
    : res (bool * t * list notification) :=
  if bool_decide (winner self ≠ None) then Ok (false, self, [])
  else if bool_decide (player_id ≠ Some (current_player self)) then Ok (false, self, [])
  else
    c ← cell (board self) row col;
    if bool_decide (c ≠ blank) then Ok (false, self, [])
    else
      let symbol := if bool_decide (player_id = Some 0) then "X" else "O" in
      r ← getitem (board self) row;
      r' ← setitem r col symbol;
      b' ← setitem (board self) row r';
      let self1 := set_board self b' in
      won ← check_winner self1 symbol;
      if won : bool then
        let self2 := finish self1 (Player <$> player_id) in
        Ok (true, self2, update_stats self2)
      else
        full ← board_full (board self1);
        if full : bool then
          let self2 := finish self1 (Some Draw) in
          Ok (true, self2, update_stats self2)
        else
          Ok (true, set_current_player self1 (1 - current_player self1), []).

(** [self.board[row][col]] for indices of any type. *)
Definition cell_value (b : list (list string)) (row col : value) : res string :=
  r ← getitem_value b row; getitem_value r col.

(** [make_move] once more, with [row] and [col] of any type a JSON body
    can give them: the same statements, each subscription made with the
    value as it came. *)
Definition make_move_json (self : t) (player_id : option Z) (row col : value)
    : res (bool * t * list notification) :=
  if bool_decide (winner self ≠ None) then Ok (false, self, [])
  else if bool_decide (player_id ≠ Some (current_player self)) then Ok (false, self, [])
  else
    c ← cell_value (board self) row col;
    if bool_decide (c ≠ blank) then Ok (false, self, [])
    else
      let symbol := if bool_decide (player_id = Some 0) then "X" else "O" in
      r ← getitem_value (board self) row;
      r' ← setitem_value r col symbol;
      b' ← setitem_value (board self) row r';
      let self1 := set_board self b' in
      won ← check_winner self1 symbol;
      if won : bool then
        let self2 := finish self1 (Player <$> player_id) in
        Ok (true, self2, update_stats self2)
      else
        full ← board_full (board self1);
        if full : bool then
          let self2 := finish self1 (Some Draw) in
          Ok (true, self2, update_stats self2)
        else
          Ok (true, set_current_player self1 (1 - current_player self1), []).

End TicTacToeGame.

(** ** Rooms, sessions and the module-level dictionaries *)

Inductive room_status := waiting | playing.

#[global] Instance room_status_eq_dec : EqDecision room_status.
Proof. solve_decision. Defined.

(** A value of [rooms]: keys 'creator', 'players', 'status', 'created_at'. *)
Record room := {
  r_creator : string;
  r_players : list string;
  r_status : room_status;
  r_created_at : string
}.

(** The Flask session of one client (a signed cookie): the keys 'username',
    'session_id', 'game_id', 'player_num' and 'room_id', each present or
    not.  'player_num' is read with [session.get] only, so an absent key
    and a stored [None] are the same [None] here. *)
Record session := {
  s_username : option string;
  s_session_id : option string;
  s_game_id : option string;
  s_player_num : option Z;
  s_room_id : option string
}.

(** [session.clear()] *)
Definition session_clear : session :=
  {| s_username := None; s_session_id := None; s_game_id := None;
     s_player_num := None; s_room_id := None |}.

(** The module-level state, with the contents of users.json. *)
Record server := {
  games : gmap string TicTacToeGame.t;
  rooms : gmap string room;
  ACTIVE_SESSIONS : gmap string string;
  game_completion_times : gmap string Z;
  users : gmap string user
}.

(** The 'message' of an error reply. *)
Inductive message :=
| NotLoggedIn        (* 'Not logged in' *)
| RoomNotFound       (* room_id not in rooms *)
| RoomNotWaiting     (* room['status'] != 'waiting' *)
| AlreadyMember      (* username in room['players'] *)
| NotInGame          (* 'Not in game' *)
| GameNotFound       (* 'Game not found' *)
| NotInThisGame.     (* 'Not in this game' *)

(** An entry of the list returned by [get_rooms]. *)
Record room_summary := {
  rs_creator : string;
  rs_players_count : nat;
  rs_created_at : string
}.

Inductive response :=
| RedirectLogin (stale : bool)        (* redirect(url_for('login'[, error=...])) *)
| RenderLobby (username : string)     (* render_template('lobby.html', ...) *)
| JsonError (m : option message)      (* {'status': 'error'[, 'message': m]} *)
| JsonRoom (room_id : string) (player_num : option Z)
                                      (* {'status': 'success', 'room_id', 'player_num'} *)
| JsonRooms (waiting_rooms : gmap string room_summary)
| JsonSuccess                         (* {'status': 'success'} *)
| JsonMove (success : bool) (board : list (list string)) (current_player : Z)
           (winner : option TicTacToeGame.winner_value)
| JsonState (game_id : string) (board : list (list string)) (current_player : Z)
            (winner : option TicTacToeGame.winner_value) (player_num : option nat)
            (players : list string)
| InternalError (e : exn).            (* an exception leaves the view function *)

(** What a route leaves behind: the reply, the dictionaries, the session. *)
Definition reply : Type := response * server * session.

(** ** The routes *)

(** [/lobby] *)
Definition lobby (st : server) (s : session) : reply :=
  match s_username s with
  | None => (RedirectLogin false, st, s)
  | Some username =>
      match ACTIVE_SESSIONS st !! username with
      | Some live =>
          match s_session_id s with
          | None => (InternalError KeyError, st, s)
          | Some sid =>
              if bool_decide (live ≠ sid) then (RedirectLogin true, st, session_clear)
              else (RenderLobby username, st, s)
          end
      | None => (RenderLobby username, st, s)
      end
  end.

(** [/create_room]; [room_id] is the identifier drawn from [uuid.uuid4()]
    and [now] the text of [datetime.now().isoformat()]. *)
Definition create_room (st : server) (s : session) (room_id now : string) : reply :=
  match s_username s with
  | None => (JsonError (Some NotLoggedIn), st, s)
  | Some username =>
      let room := {| r_creator := username; r_players := [username];
                     r_status := waiting; r_created_at := now |} in
      let game := (TicTacToeGame.add_player (TicTacToeGame.init room_id) username).1 in
      (JsonRoom room_id (Some 0),
       {| games := <[room_id := game]> (games st);
          rooms := <[room_id := room]> (rooms st);
          ACTIVE_SESSIONS := ACTIVE_SESSIONS st;
          game_completion_times := game_completion_times st;
          users := users st |},
       {| s_username := s_username s; s_session_id := s_session_id s;
          s_game_id := Some room_id; s_player_num := Some 0;
          s_room_id := Some room_id |})
  end.

(** [/get_rooms]; the reply is keyed by room id, the order of the JSON
    list (the insertion order of [rooms]) is not kept. *)
Definition get_rooms (st : server) (s : session) : reply :=
  match s_username s with
  | None => (JsonError None, st, s)
  | Some username =>
      (JsonRooms
         ((λ r, {| rs_creator := r_creator r; rs_players_count := length (r_players r);
                   rs_created_at := r_created_at r |}) <$>
          filter (λ kr : string * room,
                    r_status kr.2 = waiting ∧ username ∉ r_players kr.2) (rooms st)),
       st, s)
  end.

(** [/join_room/<room_id>].  The room is changed before [games[room_id]]
    is read, so a missing game raises with the room already updated. *)
Definition join_room (st : server) (s : session) (room_id : string) : reply :=
  match s_username s with
  | None => (JsonError (Some NotLoggedIn), st, s)
  | Some username =>
      match rooms st !! room_id with
      | None => (JsonError (Some RoomNotFound), st, s)
      | Some room =>
          if bool_decide (r_status room ≠ waiting) then
            (JsonError (Some RoomNotWaiting), st, s)
          else if bool_decide (username ∈ r_players room) then
            (JsonError (Some AlreadyMember), st, s)
          else
            let room' := {| r_creator := r_creator room;
                            r_players := r_players room ++ [username];
                            r_status := playing;
                            r_created_at := r_created_at room |} in
            let rooms' := <[room_id := room']> (rooms st) in
            match games st !! room_id with
            | None =>
                (InternalError KeyError,
                 {| games := games st; rooms := rooms';
                    ACTIVE_SESSIONS := ACTIVE_SESSIONS st;
                    game_completion_times := game_completion_times st;
                    users := users st |}, s)
            | Some game =>
                let '(game', player_num) := TicTacToeGame.add_player game username in
                (JsonRoom room_id player_num,
                 {| games := <[room_id := game']> (games st); rooms := rooms';
                    ACTIVE_SESSIONS := ACTIVE_SESSIONS st;
                    game_completion_times := game_completion_times st;
                    users := users st |},
                 {| s_username := s_username s; s_session_id := s_session_id s;
                    s_game_id := Some room_id; s_player_num := player_num;
                    s_room_id := Some room_id |})
            end
      end
  end.

(** [l.remove(x)] for an [x] that is in [l]: the first occurrence goes. *)
Fixpoint list_remove (x : string) (l : list string) : list string :=
  match l with
  | [] => []
  | y :: l' => if bool_decide (y = x) then l' else y :: list_remove x l'
  end.

(** The dictionaries after the body of [if room_id in rooms:] in
    [leave_room]. *)
Definition leave (st : server) (username room_id : string) : server :=
  match rooms st !! room_id with
  | None => st
  | Some room =>
      if bool_decide (username ∈ r_players room) then
        let ps := list_remove username (r_players room) in
        if bool_decide (length ps = 0%nat) then
          {| games := delete room_id (games st);
             rooms := delete room_id (rooms st);
             ACTIVE_SESSIONS := ACTIVE_SESSIONS st;
             game_completion_times := game_completion_times st;
             users := users st |}
        else
          let status' := if bool_decide (length ps = 1%nat) then waiting else r_status room in
          {| games := games st;
             rooms := <[room_id := {| r_creator := r_creator room; r_players := ps;
                                      r_status := status';
                                      r_created_at := r_created_at room |}]> (rooms st);
             ACTIVE_SESSIONS := ACTIVE_SESSIONS st;
             game_completion_times := game_completion_times st;
             users := users st |}
      else st
  end.

(** [/leave_room]; [session.get('room_id')] that is [None] is no key of
    [rooms]. *)
Definition leave_room (st : server) (s : session) : reply :=
  match s_username s with
  | None => (JsonError None, st, s)
  | Some username =>
      (JsonSuccess,
       match s_room_id s with
       | Some room_id => leave st username room_id
       | None => st
       end,
       {| s_username := s_username s; s_session_id := s_session_id s;
          s_game_id := None; s_player_num := None; s_room_id := None |})
  end.

(** [/move] with the JSON body [{'row': row, 'col': col}], both integers;
    [now] is [time.time()]. *)
Definition make_move (st : server) (s : session) (row col : Z) (now : Z) : reply :=
  match s_username s, s_game_id s with
  | Some _, Some game_id =>
      match games st !! game_id with
      | None => (JsonError (Some GameNotFound), st, s)
      | Some game =>
          match TicTacToeGame.make_move game (s_player_num s) row col with
          | Raise e => (InternalError e, st, s)
          | Ok (success, game', calls) =>
              (JsonMove success (TicTacToeGame.board game')
                        (TicTacToeGame.current_player game') (TicTacToeGame.winner game'),
               {| games := <[game_id := game']> (games st);
                  rooms := rooms st;
                  ACTIVE_SESSIONS := ACTIVE_SESSIONS st;
                  game_completion_times :=
                    if TicTacToeGame.game_over game'
                    then <[game_id := now]> (game_completion_times st)
                    else game_completion_times st;
                  users := record_all calls (users st) |},
               s)
          end
      end
  | _, _ => (JsonError (Some NotInGame), st, s)
  end.

(** The grace period of [get_game_state], in time units. *)
Definition grace : Z := 5.

(** [/game_state]; [now] is [time.time()].  The reply is built from the
    game object looked up at the start, after the clean-up. *)
Definition get_game_state (st : server) (s : session) (now : Z) : reply :=
  match s_username s with
  | None => (JsonError None, st, s)
  | Some username =>
      match s_game_id s ≫= λ game_id, (game_id,.) <$> games st !! game_id with
      | None => (JsonError (Some GameNotFound), st, s)
      | Some (game_id, game) =>
          let mine := λ p, TicTacToeGame.username p = username in
          if bool_decide (Exists mine (TicTacToeGame.players game)) then
            let player_num := fst <$> list_find mine (TicTacToeGame.players game) in
            let st' :=
              match game_completion_times st !! game_id with
              | Some done_at =>
                  if TicTacToeGame.game_over game && bool_decide (now - done_at > grace) then
                    {| games := delete game_id (games st);
                       rooms := delete game_id (rooms st);
                       ACTIVE_SESSIONS := ACTIVE_SESSIONS st;
                       game_completion_times := delete game_id (game_completion_times st);
                       users := users st |}
                  else st
              | None => st
              end in
            (JsonState game_id (TicTacToeGame.board game)
                       (TicTacToeGame.current_player game) (TicTacToeGame.winner game)
                       player_num (TicTacToeGame.username <$> TicTacToeGame.players game),
             st', s)
          else (JsonError (Some NotInThisGame), st, s)
      end
  end.

(** [/logout] *)
Definition logout (st : server) (s : session) : reply :=
  (RedirectLogin false,
   match s_username s with
   | Some username =>
       {| games := games st; rooms := rooms st;
          ACTIVE_SESSIONS := delete username (ACTIVE_SESSIONS st);
          game_completion_times := game_completion_times st;
          users := users st |}
   | None => st
   end,
   session_clear).

(** The dictionaries when the process starts. *)
Definition server_init (us : gmap string user) : server :=
  {| games := ∅; rooms := ∅; ACTIVE_SESSIONS := ∅;
     game_completion_times := ∅; users := us |}.

(** ** Vocabulary of the statements *)

(** A board as [__init__] builds it and [make_move] keeps it: three rows of
    three cells. *)
Definition grid (a0 a1 a2 a3 a4 a5 a6 a7 a8 : string) : list (list string) :=
  [[a0; a1; a2]; [a3; a4; a5]; [a6; a7; a8]].

Definition wf_board (b : list (list string)) : Prop :=
  length b = 3%nat ∧ Forall (λ r, length r = 3%nat) b.

(** The eight winning lines: three rows, three columns, two diagonals. *)
Definition lines : list (list (Z * Z)) :=
  [ [(0, 0); (0, 1); (0, 2)]; [(1, 0); (1, 1); (1, 2)]; [(2, 0); (2, 1); (2, 2)];
    [(0, 0); (1, 0); (2, 0)]; [(0, 1); (1, 1); (2, 1)]; [(0, 2); (1, 2); (2, 2)];
    [(0, 0); (1, 1); (2, 2)]; [(0, 2); (1, 1); (2, 0)] ].

(** Every cell of the line holds [mark]. *)
Definition line_filled (b : list (list string)) (mark : string) (l : list (Z * Z)) : Prop :=
  Forall (λ rc, TicTacToeGame.cell b rc.1 rc.2 = Ok mark) l.

Definition fills_a_line (b : list (list string)) (mark : string) : Prop :=
  Exists (line_filled b mark) lines.

(** The nine cells. *)
Definition positions : list (Z * Z) :=
  [(0, 0); (0, 1); (0, 2); (1, 0); (1, 1); (1, 2); (2, 0); (2, 1); (2, 2)].

(** No cell is empty. *)
Definition grid_full (b : list (list string)) : Prop :=
  Forall (λ rc, ∃ x, TicTacToeGame.cell b rc.1 rc.2 = Ok x ∧ x ≠ TicTacToeGame.blank) positions.

(** The mark of a slot. *)
Definition mark_of (slot : Z) : string := if bool_decide (slot = 0) then "X" else "O".

(** A game still in progress, as the class keeps it. *)
Record in_progress (self : TicTacToeGame.t) : Prop := {
  ip_board : wf_board (TicTacToeGame.board self);
  ip_turn : TicTacToeGame.current_player self = 0 ∨ TicTacToeGame.current_player self = 1;
  ip_winner : TicTacToeGame.winner self = None
}.

(** One call [make_move(player_id, row, col)]. *)
Definition call : Type := option Z * Z * Z.

(** A sequence of calls on one game object, with the calls to
    [update_user_stats] they make.  A call that raises does so in the guard,
    before any assignment, and the next request finds the object as it
    was. *)
Fixpoint play (self : TicTacToeGame.t) (calls : list call)
    : TicTacToeGame.t * list notification :=
  match calls with
  | [] => (self, [])
  | (player_id, row, col) :: calls' =>
      match TicTacToeGame.make_move self player_id row col with
      | Ok (_, self', sent) =>
          let '(final, sent') := play self' calls' in (final, sent ++ sent')
      | Raise _ => play self calls'
      end
  end.

(** The session registry's [Validate]: the live token of the session's
    identity is the session's token. *)
Definition valid_session (st : server) (s : session) : Prop :=
  ∃ username token,
    s_username s = Some username ∧ s_session_id s = Some token ∧
    ACTIVE_SESSIONS st !! username = Some token.

(** The replies by which a route turns a request away for want of a
    session: the redirect to the login page, and the JSON errors sent when
    'username' (or, for [/move], 'game_id') is not in the session. *)
Definition auth_failure (r : response) : Prop :=
  match r with
  | RedirectLogin _ | JsonError None
  | JsonError (Some NotLoggedIn) | JsonError (Some NotInGame) => True
  | _ => False
  end.

(** [username] is a member of the room [room_id] of the directory. *)
Definition member_of (st : server) (username room_id : string) : Prop :=
  ∃ room, rooms st !! room_id = Some room ∧ username ∈ r_players room.

(** No identity is a member of two rooms of the directory. *)
Definition one_room_per_identity (st : server) : Prop :=
  ∀ username r1 r2, member_of st username r1 → member_of st username r2 → r1 = r2.

(** The three parts of a reply. *)
Definition reply_of (r : reply) : response := r.1.1.
Definition state_of (r : reply) : server := r.1.2.
Definition session_of (r : reply) : session := r.2.


(** ** Concrete games, sessions and runs used as examples *)

(** A room's game once "alice" has created it and "bob" has joined. *)
Definition alice_bob_game : TicTacToeGame.t :=
  (TicTacToeGame.add_player
     (TicTacToeGame.add_player (TicTacToeGame.init "room1") "alice").1 "bob").1.

(** The board after X X _ / O O _ / _ _ _, with "alice" (slot 0) to move. *)
Definition alice_to_win : TicTacToeGame.t :=
  (play alice_bob_game
        [(Some 0, 0, 0); (Some 1, 1, 0); (Some 0, 0, 1); (Some 1, 1, 1)]).1.

(** A session as [login] leaves it for [username], with [token] as
    'session_id'. *)
Definition logged_in (username token : string) : session :=
  {| s_username := Some username; s_session_id := Some token;
     s_game_id := None; s_player_num := None; s_room_id := None |}.

Definition alice : session := logged_in "alice" "token-a".
Definition bob : session := logged_in "bob" "token-b".
Definition carol : session := logged_in "carol" "token-c".

(** "alice" creates the room "room1", "bob" joins it. *)
Definition alice_creates : reply := create_room (server_init ∅) alice "room1" "t0".
Definition bob_joins : reply := join_room (state_of alice_creates) bob "room1".

(** Then "alice" leaves, and "carol" joins the room that waits again. *)
Definition alice_leaves : reply := leave_room (state_of bob_joins) (session_of alice_creates).
Definition carol_joins : reply := join_room (state_of alice_leaves) carol "room1".

(** A request [/move]: the session, the cell and the time it arrives. *)
Definition move_request : Type := session * Z * Z * Z.

(** The dictionaries after a sequence of [/move] requests. *)
Definition moves (st : server) (reqs : list move_request) : server :=
  foldl (λ st '(s, row, col, now), state_of (make_move st s row col now)) st reqs.

(** "alice" and "bob" play in "room1"; "alice" completes the first row at
    time 100. *)
Definition finished_at_100 : server :=
  moves (state_of bob_joins)
        [ (session_of alice_creates, 0, 0, 10); (session_of bob_joins, 1, 0, 20);
          (session_of alice_creates, 0, 1, 30); (session_of bob_joins, 1, 1, 40);
          (session_of alice_creates, 0, 2, 100) ].

(** The game of "room1" at that point. *)
Definition finished_game : TicTacToeGame.t := (play alice_to_win [(Some 0, 0, 2)]).1.

(** "alice" creates a second room while she is in "room1". *)
Definition alice_creates_again : reply :=
  create_room (state_of alice_creates) (session_of alice_creates) "room2" "t1".

(** "alice" logs out, and the cookie she held before is sent again. *)
Definition alice_logged_out : server :=
  state_of (logout {| games := ∅; rooms := ∅;
                      ACTIVE_SESSIONS := {[ "alice" := "token-a" ]};
                      game_completion_times := ∅; users := ∅ |} alice).

(** "alice" has logged in again elsewhere: the live token is a new one. *)
Definition alice_relogged : server :=
  {| games := ∅; rooms := ∅;
     ACTIVE_SESSIONS := {[ "alice" := "token-new" ]};
     game_completion_times := ∅; users := ∅ |}.

(** Both players registered, with no game played yet. *)
Definition new_user : user :=
  {| password := "hash"; wins := 0; losses := 0; draws := 0; games_played := Some 0 |}.

Definition two_users : gmap string user :=
  {[ "alice" := new_user; "bob" := new_user ]}.

(** "alice" and "bob" fill the board without a line, X O X / X O O / O X X,
    and "bob" then sends one more move. *)
Definition drawn_game : server :=
  let a := session_of alice_creates in
  let b := session_of bob_joins in
  moves (state_of (join_room (state_of (create_room (server_init two_users) alice "room1" "t0"))
                             bob "room1"))
        [ (a, 0, 0, 1); (b, 0, 1, 2); (a, 0, 2, 3); (b, 1, 1, 4); (a, 1, 0, 5);
          (b, 1, 2, 6); (a, 2, 1, 7); (b, 2, 0, 8); (a, 2, 2, 9); (b, 0, 0, 10) ].

(** ** Vocabulary of the further statements about the game *)

(** The nine cells of a board, row after row. *)
Definition cells (b : list (list string)) : list string := concat b.

(** How many cells hold [mark]. *)
Definition count_mark (mark : string) (b : list (list string)) : nat :=
  length (filter (λ x, x = mark) (cells b)).

(** How many cells are not empty. *)
Definition filled (b : list (list string)) : nat :=
  length (filter (λ x, x ≠ TicTacToeGame.blank) (cells b)).

(** How many calls of a sequence return True. *)
Fixpoint accepted (self : TicTacToeGame.t) (calls : list call) : nat :=
  match calls with
  | [] => 0
  | (player_id, row, col) :: calls' =>
      match TicTacToeGame.make_move self player_id row col with
      | Ok (ok, self', _) => ((if ok : bool then 1 else 0) + accepted self' calls')%nat
      | Raise _ => accepted self calls'
      end
  end.

(** A game object as the class keeps it, in progress or over: the board is
    three by three, the turn is 0 or 1, [game_over] tells whether a winner
    is set, and the winner is player 0, player 1 or the draw. *)
Record game_inv (self : TicTacToeGame.t) : Prop := {
  gi_board : wf_board (TicTacToeGame.board self);
  gi_turn : TicTacToeGame.current_player self = 0 ∨ TicTacToeGame.current_player self = 1;
  gi_over : TicTacToeGame.game_over self = bool_decide (TicTacToeGame.winner self ≠ None);
  gi_winner : TicTacToeGame.winner self = None ∨
              TicTacToeGame.winner self = Some (TicTacToeGame.Player 0) ∨
              TicTacToeGame.winner self = Some (TicTacToeGame.Player 1) ∨
              TicTacToeGame.winner self = Some TicTacToeGame.Draw
}.

(** The outcome agrees with the board: no line and an empty cell left
    while the game is in progress, a line of the winner's mark only after a
    win, a full grid without a line after a draw. *)
Definition outcome_sound (self : TicTacToeGame.t) : Prop :=
  let b := TicTacToeGame.board self in
  match TicTacToeGame.winner self with
  | None => ¬ grid_full b ∧ ¬ fills_a_line b "X" ∧ ¬ fills_a_line b "O"
  | Some (TicTacToeGame.Player p) =>
      fills_a_line b (mark_of p) ∧ ¬ fills_a_line b (mark_of (1 - p))
  | Some TicTacToeGame.Draw =>
      grid_full b ∧ ¬ fills_a_line b "X" ∧ ¬ fills_a_line b "O"
  end.

(** The marks are laid in turn, "X" first: while the game is in progress
    "X" has as many cells as "O" plus the index of the player to move; once
    it is over the player to move is still the last mover. *)
Definition marks_in_turn (self : TicTacToeGame.t) : Prop :=
  let b := TicTacToeGame.board self in
  Forall (λ x, x = TicTacToeGame.blank ∨ x = "X" ∨ x = "O") (cells b) ∧
  Z.of_nat (count_mark "X" b) =
    Z.of_nat (count_mark "O" b) +
    match TicTacToeGame.winner self with
    | None => TicTacToeGame.current_player self
    | Some _ => 1 - TicTacToeGame.current_player self
    end.

(** [add_player] for each name in turn. *)
Definition add_players (self : TicTacToeGame.t) (names : list string) : TicTacToeGame.t :=
  foldl (λ g name, (TicTacToeGame.add_player g name).1) self names.

(** The object an accepted call leaves, from the new board [b'] and the
    two tests made on it. *)
Definition after_move (self : TicTacToeGame.t) (b' : list (list string)) (won full : bool)
    : TicTacToeGame.t :=
  let self1 := TicTacToeGame.set_board self b' in
  if won then
    TicTacToeGame.finish self1 (Some (TicTacToeGame.Player (TicTacToeGame.current_player self)))
  else if full then TicTacToeGame.finish self1 (Some TicTacToeGame.Draw)
  else TicTacToeGame.set_current_player self1 (1 - TicTacToeGame.current_player self).

(** A record of users.json whose games count is the sum of its three
    counters. *)
Definition tally_ok (u : user) : Prop :=
  games_played u = Some (wins u + losses u + draws u).

(** ** Accounts: the routes /, /login, /register and /game *)

(** [c.isspace()] for a character below 256 (a character of a string is
    one code point below 256 here): tab to carriage return, the four
    separators 28 to 31, the space, NEL and the no-break space. *)
Definition is_space (c : Ascii.ascii) : bool :=
  let n := Ascii.nat_of_ascii c in
  ((9 <=? n) && (n <=? 13) || (28 <=? n) && (n <=? 32) || (n =? 133) || (n =? 160))%nat.

(** [s.lstrip()] *)
Fixpoint lstrip (s : string) : string :=
  match s with
  | EmptyString => EmptyString
  | String c s' => if is_space c then lstrip s' else s
  end.

(** [s.strip()] *)
Definition strip (s : string) : string :=
  String.rev (lstrip (String.rev (lstrip s))).

(** [request.form]: the fields 'username' and 'password', each sent or
    not; a field that is not sent reads as the empty string. *)
Record form := {
  f_username : option string;
  f_password : option string
}.

Inductive http_method := GET | POST.

(** The error shown on the login page. *)
Inductive login_error :=
| FromQuery (text : string)   (* request.args.get('error') *)
| AccountInUse                (* the account is in use on another device *)
| WrongCredentials.           (* wrong login or password *)

(** The error shown on the registration page. *)
Inductive register_error :=
| ShortUsername               (* the login must have 3 characters at least *)
| ShortPassword               (* the password must have 4 characters at least *)
| NameTaken.                  (* the login is taken *)

(** The replies of the page routes. *)
Inductive page :=
| ToLogin (stale : bool)      (* redirect(url_for('login'[, error=...])) *)
| ToLobby                     (* redirect(url_for('lobby')) *)
| LoginPage (error : option login_error)
| RegisterPage (error : option register_error)
| GamePage (username : string)
| PageError (e : exn).        (* an exception leaves the view function *)

Definition page_reply : Type := page * server * session.

(** [/] *)
Definition index (st : server) (s : session) : page_reply :=
  match s_username s with
  | None => (ToLogin false, st, s)
  | Some username =>
      match ACTIVE_SESSIONS st !! username with
      | Some live =>
          match s_session_id s with
          | None => (PageError KeyError, st, s)
          | Some sid =>
              if bool_decide (live ≠ sid) then (ToLogin true, st, session_clear)
              else (ToLobby, st, s)
          end
      | None => (ToLobby, st, s)
      end
  end.

(** [/game] *)
Definition game (st : server) (s : session) : page_reply :=
  match s_username s, s_game_id s with
  | Some username, Some _ => (GamePage username, st, s)
  | _, _ => (ToLobby, st, s)
  end.

(** [is_user_logged_in] *)
Definition is_user_logged_in (st : server) (username : string) : bool :=
  bool_decide (is_Some (ACTIVE_SESSIONS st !! username)).

(** What [login] and [register] do on success: the keys 'username' and
    'session_id' of the session are set, the other keys of this model are
    kept, and the token becomes the live one.  (The key 'player_id', set
    here too and read by no route, is not kept.) *)
Definition begin_session (st : server) (s : session) (username session_id : string)
    : server * session :=
  ({| games := games st; rooms := rooms st;
      ACTIVE_SESSIONS := <[username := session_id]> (ACTIVE_SESSIONS st);
      game_completion_times := game_completion_times st;
      users := users st |},
   {| s_username := Some username; s_session_id := Some session_id;
      s_game_id := s_game_id s; s_player_num := s_player_num s;
      s_room_id := s_room_id s |}).

Section Accounts.

(** [hash_password]: the SHA-256 digest of the password, in hexadecimal. *)
Variable hash_password : string → string.

(** [/login]; [error] is [request.args.get('error')] and [session_id] the
    identifier drawn from [uuid.uuid4()] for a new session. *)
Definition login (st : server) (s : session) (method : http_method)
    (error : option string) (f : form) (session_id : string) : page_reply :=
  match method with
  | POST =>
      let username := strip (default EmptyString (f_username f)) in
      let secret := default EmptyString (f_password f) in
      match users st !! username with
      | Some u =>
          if bool_decide (password u = hash_password secret) then
            if is_user_logged_in st username then (LoginPage (Some AccountInUse), st, s)
            else
              let '(st', s') := begin_session st s username session_id in
              (ToLobby, st', s')
          else (LoginPage (Some WrongCredentials), st, s)
      | None => (LoginPage (Some WrongCredentials), st, s)
      end
  | GET => (LoginPage (FromQuery <$> error), st, s)
  end.

(** [/register]; the record written to users.json has the key
    'registered_at' too, which no route reads and this model does not
    keep. *)
Definition register (st : server) (s : session) (method : http_method)
    (f : form) (session_id : string) : page_reply :=
  match method with
  | POST =>
      let username := strip (default EmptyString (f_username f)) in
      let secret := default EmptyString (f_password f) in
      if bool_decide (username = EmptyString) || (String.length username <? 3)%nat then
        (RegisterPage (Some ShortUsername), st, s)
      else if bool_decide (secret = EmptyString) || (String.length secret <? 4)%nat then
        (RegisterPage (Some ShortPassword), st, s)
      else if bool_decide (is_Some (users st !! username)) then
        (RegisterPage (Some NameTaken), st, s)
      else
        let u := {| password := hash_password secret; wins := 0; losses := 0;
                    draws := 0; games_played := Some 0 |} in
        let st1 := {| games := games st; rooms := rooms st;
                      ACTIVE_SESSIONS := ACTIVE_SESSIONS st;
                      game_completion_times := game_completion_times st;
                      users := <[username := u]> (users st) |} in
        let '(st', s') := begin_session st1 s username session_id in
        (ToLobby, st', s')
  | GET => (RegisterPage None, st, s)
  end.

(** ** Requests *)

(** A request to one of the routes, with what it carries and what the
    route draws from the clock or from [uuid]. *)
Inductive request :=
| Index
| Lobby
| CreateRoom (room_id now : string)
| GetRooms
| JoinRoom (room_id : string)
| Game
| LeaveRoom
| Move (row col now : Z)
| GameState (now : Z)
| Login (method : http_method) (error : option string) (f : form) (session_id : string)
| Register (method : http_method) (f : form) (session_id : string)
| Logout.

(** The dictionaries and the session after a request. *)
Definition handle (st : server) (s : session) (req : request) : server * session :=
  match req with
  | Index => let r := index st s in (r.1.2, r.2)
  | Lobby => let r := lobby st s in (r.1.2, r.2)
  | CreateRoom room_id now => let r := create_room st s room_id now in (r.1.2, r.2)
  | GetRooms => let r := get_rooms st s in (r.1.2, r.2)
  | JoinRoom room_id => let r := join_room st s room_id in (r.1.2, r.2)
  | Game => let r := game st s in (r.1.2, r.2)
  | LeaveRoom => let r := leave_room st s in (r.1.2, r.2)
  | Move row col now => let r := make_move st s row col now in (r.1.2, r.2)
  | GameState now => let r := get_game_state st s now in (r.1.2, r.2)
  | Login method error f session_id =>
      let r := login st s method error f session_id in (r.1.2, r.2)
  | Register method f session_id =>
      let r := register st s method f session_id in (r.1.2, r.2)
  | Logout => let r := logout st s in (r.1.2, r.2)
  end.

(** The states of the dictionaries the process can be in: it starts with
    empty dictionaries and some users.json, and serves requests one after
    the other, whatever session each one carries. *)
Inductive reachable : server → Prop :=
| reachable_start us : reachable (server_init us)
| reachable_request st s req : reachable st → reachable (handle st s req).1.

End Accounts.

(** ** Vocabulary of the statements about the dictionaries *)

(** A room of the directory has one member and waits, or has two distinct
    members and plays. *)
Definition room_ok (r : room) : Prop :=
  NoDup (r_players r) ∧
  (length (r_players r) = 1%nat ∧ r_status r = waiting ∨
   length (r_players r) = 2%nat ∧ r_status r = playing).

(** The players of a game carry their position as id. *)
Definition players_ok (self : TicTacToeGame.t) : Prop :=
  TicTacToeGame.players self =
    zip_with (λ i name, {| TicTacToeGame.id := i; TicTacToeGame.username := name |})
             [0; 1] (TicTacToeGame.username <$> TicTacToeGame.players self).

(** The invariant of the dictionaries. *)
Record server_ok (st : server) : Prop := {
  so_same_ids : ∀ room_id, is_Some (rooms st !! room_id) ↔ is_Some (games st !! room_id);
  so_rooms : ∀ room_id r, rooms st !! room_id = Some r → room_ok r;
  so_games : ∀ room_id g, games st !! room_id = Some g →
               game_inv g ∧ outcome_sound g ∧ marks_in_turn g ∧ players_ok g ∧
               TicTacToeGame.game_id g = room_id;
  so_seats : ∀ room_id r g, rooms st !! room_id = Some r → games st !! room_id = Some g →
               (length (r_players r) ≤ length (TicTacToeGame.players g))%nat;
  so_stamped : ∀ room_id g, games st !! room_id = Some g →
                 TicTacToeGame.game_over g = true →
                 is_Some (game_completion_times st !! room_id)
}.

(** The invariant of the accounts: every live token belongs to a
    registered user, and every record counts its games right. *)
Record accounts_ok (st : server) : Prop := {
  ao_live : ∀ username, is_Some (ACTIVE_SESSIONS st !! username) →
                        is_Some (users st !! username);
  ao_tally : ∀ username u, users st !! username = Some u → tally_ok u
}.

(** The form a client posts to [/login] or [/register]. *)
Definition credentials (username secret : string) : form :=
  {| f_username := Some username; f_password := Some secret |}.

(** A session that carries no key yet. *)
Definition anonymous : session := session_clear.

(** "dave" registers with the password "s3cret" on a fresh process (the
    hash is taken to be the identity in the examples), and logs out. *)
Definition dave_registers : page_reply :=
  register (λ secret, secret) (server_init ∅) anonymous POST
           (credentials "dave" "s3cret") "token-d".

Definition dave_logs_out : reply :=
  logout dave_registers.1.2 dave_registers.2.

(** The room a request is about, if any: the id in the URL for
    [create_room] and [join_room], the session's 'room_id' for
    [leave_room], its 'game_id' for [/move] and [/game_state]. *)
Definition target (s : session) (req : request) : option string :=
  match req with
  | CreateRoom room_id _ | JoinRoom room_id => Some room_id
  | LeaveRoom => s_room_id s
  | Move _ _ _ | GameState _ => s_game_id s
  | _ => None
  end.

(** The string does not begin with a white space character. *)
Definition no_space_at_head (s : string) : Prop :=
  match s with
  | EmptyString => True
  | String c _ => is_space c = false
  end.
(** ** Python indexing on a board *)

Lemma bind_Ok {A B} (a : A) (k : A → res B) : Ok a ≫= k = k a.
Proof. reflexivity. Qed.

Lemma wf_board_grid b :
  wf_board b → ∃ a0 a1 a2 a3 a4 a5 a6 a7 a8, b = grid a0 a1 a2 a3 a4 a5 a6 a7 a8.
Proof.
  intros [Hlen Hrows].
  destruct b as [|[|a0 [|a1 [|a2 [|]]]] [|[|a3 [|a4 [|a5 [|]]]] [|[|a6 [|a7 [|a8 [|]]]] [|]]]];
    try discriminate Hlen;
    repeat match goal with
           | H : Forall _ (_ :: _) |- _ => apply Forall_cons in H as [? H]
           end; try discriminate.
  by exists a0, a1, a2, a3, a4, a5, a6, a7, a8.
Qed.

Lemma wf_board_of_grid a0 a1 a2 a3 a4 a5 a6 a7 a8 :
  wf_board (grid a0 a1 a2 a3 a4 a5 a6 a7 a8).
Proof. split; [done | by repeat constructor]. Qed.

Lemma cell_is_Ok b s r c x :
  TicTacToeGame.cell b r c = Ok x →
  TicTacToeGame.cell_is b s r c = Ok (bool_decide (x = s)).
Proof. unfold TicTacToeGame.cell_is. by intros ->. Qed.

(** Case analysis on an index known to lie in a short interval. *)
Ltac enum_index i :=
  match goal with
  | H : 0 ≤ i ≤ 2 |- _ =>
      assert (i = 0 ∨ i = 1 ∨ i = 2) as [-> | [-> | ->]] by lia; clear H
  | H : -3 ≤ i < 3 |- _ =>
      assert (i = -3 ∨ i = -2 ∨ i = -1 ∨ i = 0 ∨ i = 1 ∨ i = 2)
        as [-> | [-> | [-> | [-> | [-> | ->]]]]] by lia; clear H
  end.

Lemma getitem_out_of_range {A} (l : list A) (i : Z) :
  i < - Z.of_nat (length l) ∨ Z.of_nat (length l) ≤ i → getitem l i = Raise IndexError.
Proof.
  intros Hi. unfold getitem, py_index.
  rewrite !bool_decide_eq_false_2 by lia. done.
Qed.

Lemma getitem_in_range {A} (l : list A) (i : Z) :
  - Z.of_nat (length l) ≤ i < Z.of_nat (length l) → ∃ x, getitem l i = Ok x.
Proof.
  intros Hi. unfold getitem, py_index.
  destruct (decide (0 ≤ i)) as [Hpos | Hneg].
  - rewrite bool_decide_eq_true_2 by lia. simpl.
    destruct (lookup_lt_is_Some_2 l (Z.to_nat i)) as [x Hx]; [lia |].
    rewrite Hx. eauto.
  - rewrite bool_decide_eq_false_2 by lia.
    rewrite bool_decide_eq_true_2 by lia. simpl.
    destruct (lookup_lt_is_Some_2 l (Z.to_nat (i + Z.of_nat (length l)))) as [x Hx]; [lia |].
    rewrite Hx. eauto.
Qed.

(** Outside [-3 .. 2] the board cannot be indexed. *)
Lemma cell_out_of_range b r c :
  wf_board b → r < -3 ∨ 2 < r ∨ c < -3 ∨ 2 < c →
  TicTacToeGame.cell b r c = Raise IndexError.
Proof.
  intros [Hlen Hrows] Hrc. unfold TicTacToeGame.cell.
  destruct (decide (-3 ≤ r < 3)) as [Hr | Hr].
  - destruct (getitem_in_range b r) as [row Hrow]; [lia |].
    rewrite Hrow, bind_Ok.
    assert (length row = 3%nat) as Hl.
    { unfold getitem in Hrow.
      destruct (py_index (length b) r ≫= (b !!.)) as [x|] eqn:Hx; [|done].
      injection Hrow as ->.
      destruct (py_index (length b) r) as [k|]; [|done]. simpl in Hx.
      rewrite Forall_lookup in Hrows. by eapply Hrows. }
    apply getitem_out_of_range. lia.
  - rewrite getitem_out_of_range by lia. done.
Qed.

(** A negative index in range names the cell it wraps around to. *)
Lemma cell_wrap b r c :
  wf_board b → -3 ≤ r < 3 → -3 ≤ c < 3 →
  TicTacToeGame.cell b r c = TicTacToeGame.cell b (r mod 3) (c mod 3).
Proof.
  intros (a0 & a1 & a2 & a3 & a4 & a5 & a6 & a7 & a8 & ->)%wf_board_grid Hr Hc.
  enum_index r; enum_index c; reflexivity.
Qed.

Lemma cell_in_range b r c :
  wf_board b → -3 ≤ r < 3 → -3 ≤ c < 3 → ∃ x, TicTacToeGame.cell b r c = Ok x.
Proof.
  intros (a0 & a1 & a2 & a3 & a4 & a5 & a6 & a7 & a8 & ->)%wf_board_grid Hr Hc.
  enum_index r; enum_index c; eexists; reflexivity.
Qed.

(** [self.board[row][col] = x] on a board: the three list operations
    succeed, the board keeps its shape, the cell holds [x] and the other
    cells are as before. *)
Lemma board_write b row col x :
  wf_board b → -3 ≤ row < 3 → -3 ≤ col < 3 →
  ∃ r r' b',
    getitem b row = Ok r ∧ setitem r col x = Ok r' ∧ setitem b row r' = Ok b' ∧
    wf_board b' ∧
    TicTacToeGame.cell b' (row mod 3) (col mod 3) = Ok x ∧
    ∀ r2 c2, 0 ≤ r2 ≤ 2 → 0 ≤ c2 ≤ 2 → (r2, c2) ≠ (row mod 3, col mod 3) →
             TicTacToeGame.cell b' r2 c2 = TicTacToeGame.cell b r2 c2.
Proof.
  intros (a0 & a1 & a2 & a3 & a4 & a5 & a6 & a7 & a8 & ->)%wf_board_grid Hr Hc.
  enum_index row; enum_index col;
    (do 3 eexists; split_and!; [reflexivity .. | apply wf_board_of_grid | reflexivity |];
     intros r2 c2 Hr2 Hc2 Hne; enum_index r2; enum_index c2;
     first [ reflexivity | by destruct Hne ]).
Qed.

(** ** check_winner and the eight lines *)

Lemma Ok_inj {A} (x y : A) : Ok x = Ok y ↔ x = y.
Proof. split; [by intros [= ->] | by intros ->]. Qed.

(** The lines of a board, cell by cell. *)
Lemma fills_a_line_grid a0 a1 a2 a3 a4 a5 a6 a7 a8 s :
  fills_a_line (grid a0 a1 a2 a3 a4 a5 a6 a7 a8) s ↔
    (a0 = s ∧ a1 = s ∧ a2 = s) ∨ (a3 = s ∧ a4 = s ∧ a5 = s) ∨ (a6 = s ∧ a7 = s ∧ a8 = s) ∨
    (a0 = s ∧ a3 = s ∧ a6 = s) ∨ (a1 = s ∧ a4 = s ∧ a7 = s) ∨ (a2 = s ∧ a5 = s ∧ a8 = s) ∨
    (a0 = s ∧ a4 = s ∧ a8 = s) ∨ (a2 = s ∧ a4 = s ∧ a6 = s).
Proof.
  unfold fills_a_line, lines, line_filled.
  rewrite !Exists_cons, Exists_nil, !Forall_cons, !Forall_nil.
  change (TicTacToeGame.cell (grid a0 a1 a2 a3 a4 a5 a6 a7 a8) (0, 0).1 (0, 0).2) with (Ok a0).
  change (TicTacToeGame.cell (grid a0 a1 a2 a3 a4 a5 a6 a7 a8) (0, 1).1 (0, 1).2) with (Ok a1).
  change (TicTacToeGame.cell (grid a0 a1 a2 a3 a4 a5 a6 a7 a8) (0, 2).1 (0, 2).2) with (Ok a2).
  change (TicTacToeGame.cell (grid a0 a1 a2 a3 a4 a5 a6 a7 a8) (1, 0).1 (1, 0).2) with (Ok a3).
  change (TicTacToeGame.cell (grid a0 a1 a2 a3 a4 a5 a6 a7 a8) (1, 1).1 (1, 1).2) with (Ok a4).
  change (TicTacToeGame.cell (grid a0 a1 a2 a3 a4 a5 a6 a7 a8) (1, 2).1 (1, 2).2) with (Ok a5).
  change (TicTacToeGame.cell (grid a0 a1 a2 a3 a4 a5 a6 a7 a8) (2, 0).1 (2, 0).2) with (Ok a6).
  change (TicTacToeGame.cell (grid a0 a1 a2 a3 a4 a5 a6 a7 a8) (2, 1).1 (2, 1).2) with (Ok a7).
  change (TicTacToeGame.cell (grid a0 a1 a2 a3 a4 a5 a6 a7 a8) (2, 2).1 (2, 2).2) with (Ok a8).
  rewrite !Ok_inj. tauto.
Qed.

(** Runs the board-reading loops of the class on a [grid], splitting on
    each comparison met. *)
Ltac run_board :=
  repeat first
    [ erewrite cell_is_Ok by reflexivity
    | progress cbn
    | case_bool_decide ].

(** [check_winner] returns on every board, and returns true exactly when
    the symbol fills one of the eight lines. *)
Lemma check_winner_board_spec b s :
  wf_board b →
  ∃ w, TicTacToeGame.check_winner_board b s = Ok w ∧ (w = true ↔ fills_a_line b s).
Proof.
  intros (a0 & a1 & a2 & a3 & a4 & a5 & a6 & a7 & a8 & ->)%wf_board_grid.
  setoid_rewrite fills_a_line_grid.
  unfold TicTacToeGame.check_winner_board, grid.
  run_board; (eexists; split; [reflexivity |]); split; intros; try done; try tauto;
    exfalso; intuition congruence.
Qed.

Lemma grid_full_grid a0 a1 a2 a3 a4 a5 a6 a7 a8 :
  grid_full (grid a0 a1 a2 a3 a4 a5 a6 a7 a8) ↔
    a0 ≠ TicTacToeGame.blank ∧ a1 ≠ TicTacToeGame.blank ∧ a2 ≠ TicTacToeGame.blank ∧
    a3 ≠ TicTacToeGame.blank ∧ a4 ≠ TicTacToeGame.blank ∧ a5 ≠ TicTacToeGame.blank ∧
    a6 ≠ TicTacToeGame.blank ∧ a7 ≠ TicTacToeGame.blank ∧ a8 ≠ TicTacToeGame.blank.
Proof.
  unfold grid_full, positions. rewrite !Forall_cons, Forall_nil.
  split.
  - intros ((x0 & [= <-] & ?) & (x1 & [= <-] & ?) & (x2 & [= <-] & ?) &
            (x3 & [= <-] & ?) & (x4 & [= <-] & ?) & (x5 & [= <-] & ?) &
            (x6 & [= <-] & ?) & (x7 & [= <-] & ?) & (x8 & [= <-] & ?) & _).
    done.
  - intros (? & ? & ? & ? & ? & ? & ? & ? & ?).
    split_and!; try done; eexists; (split; [reflexivity | done]).
Qed.

Lemma bind_cell_Ok {B} b r c x (k : string → res B) :
  TicTacToeGame.cell b r c = Ok x → TicTacToeGame.cell b r c ≫= k = k x.
Proof. by intros ->. Qed.

(** The draw test returns on every board, and returns true exactly when no
    cell is empty. *)
Lemma board_full_spec b :
  wf_board b →
  ∃ f, TicTacToeGame.board_full b = Ok f ∧ (f = true ↔ grid_full b).
Proof.
  intros (a0 & a1 & a2 & a3 & a4 & a5 & a6 & a7 & a8 & ->)%wf_board_grid.
  setoid_rewrite grid_full_grid.
  unfold TicTacToeGame.board_full, grid.
  repeat first
    [ erewrite bind_cell_Ok by reflexivity
    | progress cbn
    | case_bool_decide ];
    (eexists; split; [reflexivity |]); split; intros; try done; tauto.
Qed.

(** ** make_move *)

Lemma symbol_mark_of (slot : Z) :
  (if bool_decide (Some slot = Some 0) then "X" else "O") = mark_of slot.
Proof. unfold mark_of. repeat case_bool_decide; naive_solver. Qed.

(** A board that can be indexed at [(row, col)] has both indices in
    Python's range. *)
Lemma cell_Ok_range b row col x :
  wf_board b → TicTacToeGame.cell b row col = Ok x → -3 ≤ row < 3 ∧ -3 ≤ col < 3.
Proof.
  intros Hwf Hcell.
  destruct (decide (-3 ≤ row < 3 ∧ -3 ≤ col < 3)) as [|Hout]; [done |].
  rewrite cell_out_of_range in Hcell by (done || lia). done.
Qed.

(** The accepting path of [make_move], for any pair of indices Python
    accepts. *)
Lemma make_move_accepted self row col :
  wf_board (TicTacToeGame.board self) →
  TicTacToeGame.winner self = None →
  TicTacToeGame.cell (TicTacToeGame.board self) row col = Ok TicTacToeGame.blank →
  let slot := TicTacToeGame.current_player self in
  ∃ self' sent,
    TicTacToeGame.make_move self (Some slot) row col = Ok (true, self', sent) ∧
    wf_board (TicTacToeGame.board self') ∧
    TicTacToeGame.cell (TicTacToeGame.board self') (row mod 3) (col mod 3) = Ok (mark_of slot) ∧
    (∀ r c, 0 ≤ r ≤ 2 → 0 ≤ c ≤ 2 → (r, c) ≠ (row mod 3, col mod 3) →
            TicTacToeGame.cell (TicTacToeGame.board self') r c =
            TicTacToeGame.cell (TicTacToeGame.board self) r c) ∧
    TicTacToeGame.players self' = TicTacToeGame.players self ∧
    TicTacToeGame.game_id self' = TicTacToeGame.game_id self ∧
    (fills_a_line (TicTacToeGame.board self') (mark_of slot) →
       TicTacToeGame.winner self' = Some (TicTacToeGame.Player slot) ∧
       TicTacToeGame.game_over self' = true ∧
       sent = TicTacToeGame.update_stats self') ∧
    (¬ fills_a_line (TicTacToeGame.board self') (mark_of slot) →
     grid_full (TicTacToeGame.board self') →
       TicTacToeGame.winner self' = Some TicTacToeGame.Draw ∧
       TicTacToeGame.game_over self' = true ∧
       sent = TicTacToeGame.update_stats self') ∧
    (¬ fills_a_line (TicTacToeGame.board self') (mark_of slot) →
     ¬ grid_full (TicTacToeGame.board self') →
       TicTacToeGame.winner self' = None ∧
       TicTacToeGame.game_over self' = TicTacToeGame.game_over self ∧
       TicTacToeGame.current_player self' = 1 - slot ∧
       sent = []).
Proof.
  intros Hwf Hw Hcell slot.
  destruct (cell_Ok_range _ _ _ _ Hwf Hcell) as [Hr Hc].
  destruct (board_write (TicTacToeGame.board self) row col (mark_of slot) Hwf Hr Hc)
    as (r & r' & b' & Hget & Hset & Hset' & Hwf' & Hcell' & Hother).
  destruct (check_winner_board_spec b' (mark_of slot) Hwf') as (w & Hcheck & Hwin).
  destruct (board_full_spec b' Hwf') as (f & Hfull & Hdraw).
  unfold TicTacToeGame.make_move, TicTacToeGame.check_winner.
  rewrite Hw, Hcell, bind_Ok.
  rewrite (bool_decide_eq_false_2 (None ≠ None)) by (by intros []).
  rewrite (bool_decide_eq_false_2 (Some slot ≠ Some slot)) by (by intros []).
  rewrite (bool_decide_eq_false_2 (TicTacToeGame.blank ≠ TicTacToeGame.blank)) by (by intros []).
  fold slot. rewrite symbol_mark_of, Hget, bind_Ok, Hset, bind_Ok, Hset', bind_Ok.
  cbn [TicTacToeGame.set_board TicTacToeGame.board].
  rewrite Hcheck, bind_Ok.
  destruct w.
  - assert (fills_a_line b' (mark_of slot)) by by apply Hwin.
    eexists _, _. split; [reflexivity |]. cbn.
    split_and!; try done; intros; tauto.
  - assert (¬ fills_a_line b' (mark_of slot)) by by intros ?%Hwin.
    rewrite Hfull, bind_Ok. destruct f.
    + assert (grid_full b') by by apply Hdraw.
      eexists _, _. split; [reflexivity |]. cbn.
      split_and!; try done; intros; tauto.
    + assert (¬ grid_full b') by by intros ?%Hdraw.
      eexists _, _. split; [reflexivity |]. cbn.
      split_and!; try done; intros; tauto.
Qed.

Lemma make_move_rejected self player_id row col :
  TicTacToeGame.winner self ≠ None ∨
  player_id ≠ Some (TicTacToeGame.current_player self) ∨
  (∃ x, TicTacToeGame.cell (TicTacToeGame.board self) row col = Ok x ∧
        x ≠ TicTacToeGame.blank) →
  TicTacToeGame.make_move self player_id row col = Ok (false, self, []).
Proof.
  intros Hrej. unfold TicTacToeGame.make_move.
  case_bool_decide as Hover; [done |].
  case_bool_decide as Hturn; [done |].
  destruct Hrej as [? | [? | (x & -> & Hx)]]; [done .. |].
  rewrite bind_Ok. by rewrite bool_decide_eq_true_2.
Qed.

(** When the guard cannot index the board, the call raises before any
    assignment. *)
Lemma make_move_raises self row col e :
  TicTacToeGame.winner self = None →
  TicTacToeGame.cell (TicTacToeGame.board self) row col = Raise e →
  TicTacToeGame.make_move self (Some (TicTacToeGame.current_player self)) row col = Raise e.
Proof.
  intros Hw Hcell. unfold TicTacToeGame.make_move. rewrite Hw, Hcell.
  rewrite (bool_decide_eq_false_2 (None ≠ None)) by (by intros []).
  by rewrite bool_decide_eq_false_2 by (by intros []).
Qed.

(** On a board, whether a mark fills a line and whether the grid is full
    can be told. *)
Lemma fills_a_line_cases b mark :
  wf_board b → fills_a_line b mark ∨ ¬ fills_a_line b mark.
Proof.
  intros Hwf. destruct (check_winner_board_spec b mark Hwf) as ([] & _ & Hw).
  - left. by apply Hw.
  - right. by intros ?%Hw.
Qed.

Lemma grid_full_cases b : wf_board b → grid_full b ∨ ¬ grid_full b.
Proof.
  intros Hwf. destruct (board_full_spec b Hwf) as ([] & _ & Hf).
  - left. by apply Hf.
  - right. by intros ?%Hf.
Qed.

(** One call on a game in progress: it raises, or leaves the game in
    progress without a notification, or finishes it with the notification
    of [update_stats]. *)
Lemma make_move_in_progress self player_id row col :
  in_progress self →
  match TicTacToeGame.make_move self player_id row col with
  | Raise _ => True
  | Ok (_, self', sent) =>
      TicTacToeGame.players self' = TicTacToeGame.players self ∧
      ((in_progress self' ∧ sent = []) ∨
       (∃ w, TicTacToeGame.winner self' = Some w ∧
             (w = TicTacToeGame.Draw ∨ w = TicTacToeGame.Player 0 ∨
              w = TicTacToeGame.Player 1) ∧
             sent = TicTacToeGame.update_stats self'))
  end.
Proof.
  intros Hip. pose proof Hip as [Hwf Hturn Hw].
  destruct (decide (player_id = Some (TicTacToeGame.current_player self))) as [-> | Hne].
  - destruct (TicTacToeGame.cell (TicTacToeGame.board self) row col) as [x | e] eqn:Hcell.
    + destruct (decide (x = TicTacToeGame.blank)) as [-> | Hx].
      * destruct (make_move_accepted self row col Hwf Hw Hcell)
          as (self' & sent & -> & Hwf' & _ & _ & Hpl & _ & Hwon & Hdraw & Hnext).
        split; [done |].
        destruct (fills_a_line_cases _ (mark_of (TicTacToeGame.current_player self)) Hwf')
          as [Hline | Hline].
        { right. destruct (Hwon Hline) as (-> & _ & ->). eexists. split; [done |].
          split; [| done]. right. destruct Hturn as [-> | ->]; auto. }
        destruct (grid_full_cases _ Hwf') as [Hfull | Hfull].
        { right. destruct (Hdraw Hline Hfull) as (-> & _ & ->). eexists. split; [done |]. auto. }
        left. destruct (Hnext Hline Hfull) as (Hw' & _ & Hcp & ->).
        split; [| done]. split; [done | | done]. rewrite Hcp. lia.
      * rewrite make_move_rejected by eauto. split; [done |]. by left.
    + by rewrite (make_move_raises _ _ _ e).
  - rewrite make_move_rejected by auto. split; [done |]. by left.
Qed.

(** ** Sequences of calls *)

Lemma play_finished self calls :
  TicTacToeGame.winner self ≠ None → play self calls = (self, []).
Proof.
  intros Hw. induction calls as [| [[player_id row] col] calls IH]; [done |].
  cbn. rewrite make_move_rejected by auto. by rewrite IH.
Qed.

Lemma play_app self calls more :
  play self (calls ++ more) =
  let '(mid, sent) := play self calls in
  let '(final, sent') := play mid more in (final, sent ++ sent').
Proof.
  revert self. induction calls as [| [[player_id row] col] calls IH]; intros self.
  - cbn. by destruct (play self more).
  - cbn. destruct (TicTacToeGame.make_move self player_id row col) as [[[ok self'] sent] | e].
    + rewrite IH. destruct (play self' calls) as [mid sent1].
      destruct (play mid more) as [final sent2]. by rewrite app_assoc.
    + apply IH.
Qed.

Lemma play_in_progress self calls :
  in_progress self →
  ∃ final sent,
    play self calls = (final, sent) ∧
    TicTacToeGame.players final = TicTacToeGame.players self ∧
    ((in_progress final ∧ sent = []) ∨
     (∃ w, TicTacToeGame.winner final = Some w ∧
           (w = TicTacToeGame.Draw ∨ w = TicTacToeGame.Player 0 ∨
            w = TicTacToeGame.Player 1) ∧
           sent = TicTacToeGame.update_stats final)).
Proof.
  revert self. induction calls as [| [[player_id row] col] calls IH]; intros self Hip.
  - exists self, []. split; [done |]. split; [done |]. by left.
  - pose proof (make_move_in_progress self player_id row col Hip) as Hstep.
    cbn. destruct (TicTacToeGame.make_move self player_id row col)
      as [[[ok self'] sent] | e].
    + destruct Hstep as [Hpl [[Hip' ->] | (w & Hw & Hwho & ->)]].
      * destruct (IH self' Hip') as (final & sent' & -> & Hpl' & Hend).
        exists final, sent'. split; [done |]. split; [congruence | done].
      * rewrite play_finished by (by rewrite Hw).
        eexists _, _. split; [by rewrite app_nil_r |]. split; [done |].
        right. eauto.
    + apply (IH self Hip).
Qed.

(** ** The claims about the game engine *)

(** C1. For a game in progress, a move by the player to move on an empty
    cell with [0 <= row, col <= 2] is accepted: the cell receives the mark
    of the slot ("X" for slot 0, "O" for slot 1) and no other cell changes;
    then, if the mark fills one of the eight lines the winner is the slot,
    otherwise if no cell is empty the outcome is the draw, otherwise the
    player to move becomes [1 - slot]. *)
Theorem make_move_accepts self row col :
  in_progress self →
  0 ≤ row ≤ 2 → 0 ≤ col ≤ 2 →
  TicTacToeGame.cell (TicTacToeGame.board self) row col = Ok TicTacToeGame.blank →
  let slot := TicTacToeGame.current_player self in
  (slot = 0 ∧ mark_of slot = "X" ∨ slot = 1 ∧ mark_of slot = "O") ∧
  ∃ self' sent,
    TicTacToeGame.make_move self (Some slot) row col = Ok (true, self', sent) ∧
    wf_board (TicTacToeGame.board self') ∧
    TicTacToeGame.cell (TicTacToeGame.board self') row col = Ok (mark_of slot) ∧
    (∀ r c, 0 ≤ r ≤ 2 → 0 ≤ c ≤ 2 → (r, c) ≠ (row, col) →
            TicTacToeGame.cell (TicTacToeGame.board self') r c =
            TicTacToeGame.cell (TicTacToeGame.board self) r c) ∧
    (fills_a_line (TicTacToeGame.board self') (mark_of slot) →
       TicTacToeGame.winner self' = Some (TicTacToeGame.Player slot) ∧
       TicTacToeGame.game_over self' = true) ∧
    (¬ fills_a_line (TicTacToeGame.board self') (mark_of slot) →
     grid_full (TicTacToeGame.board self') →
       TicTacToeGame.winner self' = Some TicTacToeGame.Draw ∧
       TicTacToeGame.game_over self' = true) ∧
    (¬ fills_a_line (TicTacToeGame.board self') (mark_of slot) →
     ¬ grid_full (TicTacToeGame.board self') →
       TicTacToeGame.winner self' = None ∧
       TicTacToeGame.current_player self' = 1 - slot).
Proof.
  intros [Hwf Hturn Hw] Hrow Hcol Hcell slot.
  split.
  { subst slot. destruct Hturn as [-> | ->]; [left | right]; done. }
  destruct (make_move_accepted self row col Hwf Hw Hcell)
    as (self' & sent & Hmove & Hwf' & Hcell' & Hother & _ & _ & Hwon & Hdraw & Hnext).
  assert (row mod 3 = row) as Hr by (by apply Z.mod_small; lia).
  assert (col mod 3 = col) as Hc by (by apply Z.mod_small; lia).
  rewrite Hr, Hc in Hcell', Hother.
  exists self', sent. split_and!; try done.
  - intros Hline. by destruct (Hwon Hline) as (? & ? & _).
  - intros Hline Hfull. by destruct (Hdraw Hline Hfull) as (? & ? & _).
  - intros Hline Hfull. by destruct (Hnext Hline Hfull) as (? & _ & ? & _).
Qed.

Lemma alice_to_win_in_progress : in_progress alice_to_win.
Proof.
  split; [apply (wf_board_of_grid "X" "X" TicTacToeGame.blank "O" "O") | by left | done].
Qed.

Lemma make_move_accepts_witness :
  ∃ self' sent,
    TicTacToeGame.make_move alice_to_win (Some 0) 0 2 = Ok (true, self', sent) ∧
    TicTacToeGame.cell (TicTacToeGame.board self') 0 2 = Ok "X" ∧
    (fills_a_line (TicTacToeGame.board self') "X" →
       TicTacToeGame.winner self' = Some (TicTacToeGame.Player 0) ∧
       TicTacToeGame.game_over self' = true).
Proof.
  destruct (make_move_accepts alice_to_win 0 2 alice_to_win_in_progress)
    as (_ & self' & sent & Hmove & _ & Hcell & _ & Hwon & _); [lia | lia | reflexivity |].
  exists self', sent. split; [exact Hmove |]. split; [exact Hcell | exact Hwon].
Defined.

(** C2. A call that meets one of the three rejections (the game is over,
    the caller is not the player to move, the cell is occupied) returns
    false and leaves the game object as it was, with no call to the
    statistics. *)
Theorem make_move_rejected_unchanged self player_id row col :
  TicTacToeGame.winner self ≠ None ∨
  player_id ≠ Some (TicTacToeGame.current_player self) ∨
  (∃ x, TicTacToeGame.cell (TicTacToeGame.board self) row col = Ok x ∧
        x ≠ TicTacToeGame.blank) →
  ∃ self' sent,
    TicTacToeGame.make_move self player_id row col = Ok (false, self', sent) ∧
    TicTacToeGame.board self' = TicTacToeGame.board self ∧
    TicTacToeGame.current_player self' = TicTacToeGame.current_player self ∧
    TicTacToeGame.winner self' = TicTacToeGame.winner self ∧
    self' = self ∧ sent = [].
Proof.
  intros Hrej. exists self, []. by rewrite make_move_rejected.
Qed.

Lemma make_move_rejected_unchanged_witness :
  ∃ self' sent,
    TicTacToeGame.make_move alice_to_win (Some 1) 2 2 = Ok (false, self', sent) ∧
    self' = alice_to_win.
Proof.
  destruct (make_move_rejected_unchanged alice_to_win (Some 1) 2 2)
    as (self' & sent & Hmove & _ & _ & _ & Hsame & _).
  - right. left. discriminate.
  - exists self', sent. split; [exact Hmove | exact Hsame].
Defined.

(** Conversely a call that returns false has changed nothing. *)
Lemma make_move_false_unchanged self player_id row col self' sent :
  wf_board (TicTacToeGame.board self) →
  TicTacToeGame.make_move self player_id row col = Ok (false, self', sent) →
  self' = self ∧ sent = [].
Proof.
  intros Hwf Hmove.
  destruct (decide (TicTacToeGame.winner self = None)) as [Hw | Hw].
  2: { rewrite make_move_rejected in Hmove by auto. by injection Hmove as <- <-. }
  destruct (decide (player_id = Some (TicTacToeGame.current_player self))) as [-> | Hne].
  2: { rewrite make_move_rejected in Hmove by auto. by injection Hmove as <- <-. }
  destruct (TicTacToeGame.cell (TicTacToeGame.board self) row col) as [x | e] eqn:Hcell.
  2: { by rewrite (make_move_raises _ _ _ e) in Hmove. }
  destruct (decide (x = TicTacToeGame.blank)) as [-> | Hx].
  2: { rewrite make_move_rejected in Hmove by eauto. by injection Hmove as <- <-. }
  destruct (make_move_accepted self row col Hwf Hw Hcell) as (? & ? & Hacc & _).
  rewrite Hacc in Hmove. discriminate.
Qed.

(** C3. On a board where one of the eight lines is filled with a mark,
    [check_winner] returns true for that mark; and it returns false for
    another mark that fills no line of the same board. *)
Theorem check_winner_lines self l mark other :
  wf_board (TicTacToeGame.board self) →
  l ∈ lines →
  line_filled (TicTacToeGame.board self) mark l →
  TicTacToeGame.check_winner self mark = Ok true ∧
  (¬ fills_a_line (TicTacToeGame.board self) other →
   TicTacToeGame.check_winner self other = Ok false).
Proof.
  intros Hwf Hl Hfilled. unfold TicTacToeGame.check_winner. split.
  - destruct (check_winner_board_spec _ mark Hwf) as (w & -> & Hw).
    f_equal. apply Hw. apply Exists_exists. eauto.
  - intros Hnone. destruct (check_winner_board_spec _ other Hwf) as ([] & -> & Hw); [| done].
    destruct Hnone. by apply Hw.
Qed.

(** X X X / O O _ / _ _ _ *)
Lemma check_winner_lines_witness :
  let self := TicTacToeGame.set_board alice_bob_game
                (grid "X" "X" "X" "O" "O" TicTacToeGame.blank
                      TicTacToeGame.blank TicTacToeGame.blank TicTacToeGame.blank) in
  TicTacToeGame.check_winner self "X" = Ok true ∧
  TicTacToeGame.check_winner self "O" = Ok false.
Proof.
  intros self.
  destruct (check_winner_lines self [(0, 0); (0, 1); (0, 2)] "X" "O") as [Hx Ho].
  - apply wf_board_of_grid.
  - apply list_elem_of_here.
  - repeat constructor.
  - split; [exact Hx |]. apply Ho.
    intros Hline. apply fills_a_line_grid in Hline.
    repeat destruct Hline as [(? & ? & ?) | Hline]; try discriminate.
    by destruct Hline as (? & ? & ?).
Defined.

(** C4. Whatever calls are made on a game in progress with its two players
    bound, the calls to [update_user_stats] they make are: none while the
    game is in progress, and once the outcome is terminal exactly one
    notification, win for the winner and loss for the other player, or draw
    for both; calls made after that add nothing and change nothing. *)
Theorem stats_notified_once self calls a b :
  in_progress self →
  TicTacToeGame.players self =
    [ {| TicTacToeGame.id := 0; TicTacToeGame.username := a |};
      {| TicTacToeGame.id := 1; TicTacToeGame.username := b |} ] →
  ∃ final sent,
    play self calls = (final, sent) ∧
    match TicTacToeGame.winner final with
    | None => sent = []
    | Some (TicTacToeGame.Player w) =>
        w = 0 ∧ sent = [(a, win); (b, loss)] ∨ w = 1 ∧ sent = [(a, loss); (b, win)]
    | Some TicTacToeGame.Draw => sent = [(a, draw); (b, draw)]
    end ∧
    (TicTacToeGame.winner final ≠ None →
     ∀ more, play self (calls ++ more) = (final, sent)).
Proof.
  intros Hip Hplayers.
  destruct (play_in_progress self calls Hip) as (final & sent & Hplay & Hpl & Hend).
  exists final, sent. split; [done |]. split.
  - destruct Hend as [[[_ _ ->] ->] | (w & Hw & Hwho & ->)]; [done |].
    rewrite Hw. unfold TicTacToeGame.update_stats. rewrite Hw, Hpl, Hplayers.
    destruct Hwho as [-> | [-> | ->]]; cbn; auto.
  - intros Hover more. rewrite play_app, Hplay, play_finished by done.
    by rewrite app_nil_r.
Qed.

Lemma alice_bob_game_in_progress : in_progress alice_bob_game.
Proof.
  split; [| by left | done].
  apply (wf_board_of_grid TicTacToeGame.blank TicTacToeGame.blank TicTacToeGame.blank
           TicTacToeGame.blank TicTacToeGame.blank TicTacToeGame.blank
           TicTacToeGame.blank TicTacToeGame.blank TicTacToeGame.blank).
Qed.

(** "alice" completes the first row; "bob" then tries a sixth move. *)
Lemma stats_notified_once_witness :
  ∃ final,
    play alice_bob_game
         [(Some 0, 0, 0); (Some 1, 1, 0); (Some 0, 0, 1); (Some 1, 1, 1); (Some 0, 0, 2);
          (Some 1, 2, 2)]
    = (final, [("alice", win); ("bob", loss)]) ∧
    TicTacToeGame.winner final = Some (TicTacToeGame.Player 0).
Proof.
  destruct (stats_notified_once alice_bob_game
              [(Some 0, 0, 0); (Some 1, 1, 0); (Some 0, 0, 1); (Some 1, 1, 1); (Some 0, 0, 2);
               (Some 1, 2, 2)] "alice" "bob" alice_bob_game_in_progress eq_refl)
    as (final & sent & Hplay & _ & _).
  exists final. vm_compute in Hplay. injection Hplay as <- <-. split; reflexivity.
Defined.

(** C10. [make_move] does not check that [row] and [col] lie in [0 .. 2].
    For the player to move in a game in progress, a pair of indices in
    [-3 .. 2] with a negative one is accepted when the cell it wraps around
    to is empty, and that cell receives the mark; and a call with [row] or
    [col] above 2 raises [IndexError] instead of returning a rejection. *)
Theorem make_move_no_bounds_check self row col :
  in_progress self →
  let slot := TicTacToeGame.current_player self in
  (-3 ≤ row < 3 → -3 ≤ col < 3 → row < 0 ∨ col < 0 →
   TicTacToeGame.cell (TicTacToeGame.board self) (row mod 3) (col mod 3)
     = Ok TicTacToeGame.blank →
   ∃ self' sent,
     TicTacToeGame.make_move self (Some slot) row col = Ok (true, self', sent) ∧
     TicTacToeGame.cell (TicTacToeGame.board self') (row mod 3) (col mod 3)
       = Ok (mark_of slot)) ∧
  (2 < row ∨ 2 < col →
   TicTacToeGame.make_move self (Some slot) row col = Raise IndexError).
Proof.
  intros [Hwf Hturn Hw] slot. split.
  - intros Hrow Hcol _ Hcell. rewrite <- cell_wrap in Hcell by done.
    destruct (make_move_accepted self row col Hwf Hw Hcell)
      as (self' & sent & Hmove & _ & Hcell' & _).
    eauto.
  - intros Hout. apply make_move_raises; [done |].
    apply cell_out_of_range; [done | lia].
Qed.

(** On a new game [make_move(0, -1, -1)] writes "X" into the cell (2, 2). *)
Lemma make_move_no_bounds_check_witness :
  ∃ self' sent,
    TicTacToeGame.make_move alice_bob_game (Some 0) (-1) (-1) = Ok (true, self', sent) ∧
    TicTacToeGame.cell (TicTacToeGame.board self') 2 2 = Ok "X".
Proof.
  apply (make_move_no_bounds_check alice_bob_game (-1) (-1) alice_bob_game_in_progress);
    [lia | lia | left; lia | reflexivity].
Defined.

(** The same call raises for an index above 2. *)
Example make_move_row_3 :
  TicTacToeGame.make_move alice_bob_game (Some 0) 3 0 = Raise IndexError.
Proof. reflexivity. Qed.

(** ** The claims about rooms and sessions *)

Example bob_joins_as_slot_1 :
  reply_of bob_joins = JsonRoom "room1" (Some 1) ∧
  rooms (state_of bob_joins) !! "room1" =
    Some {| r_creator := "alice"; r_players := ["alice"; "bob"];
            r_status := playing; r_created_at := "t0" |}.
Proof. split; vm_compute; reflexivity. Qed.

Example finished_at_100_state :
  TicTacToeGame.winner <$> games finished_at_100 !! "room1" = Some (Some (TicTacToeGame.Player 0)) ∧
  game_completion_times finished_at_100 !! "room1" = Some 100.
Proof. split; vm_compute; reflexivity. Qed.

(** *** /game_state and the clean-up *)

Lemma bool_decide_Exists_member username (ps : list TicTacToeGame.player) :
  Exists (λ p, TicTacToeGame.username p = username) ps →
  bool_decide (Exists (λ p, TicTacToeGame.username p = username) ps) = true.
Proof. apply bool_decide_eq_true_2. Qed.

(** A poll for a game that is not in [games] is answered 'Game not found'
    and changes nothing. *)
Lemma get_game_state_not_found st s now username game_id :
  s_username s = Some username →
  s_game_id s = Some game_id →
  games st !! game_id = None →
  get_game_state st s now = (JsonError (Some GameNotFound), st, s).
Proof.
  intros Hu Hg Hnone. unfold get_game_state. rewrite Hu, Hg. cbn. by rewrite Hnone.
Qed.

(** What a poll by a member does to a finished game. *)
Lemma get_game_state_member st s now username game_id game t :
  s_username s = Some username →
  s_game_id s = Some game_id →
  games st !! game_id = Some game →
  Exists (λ p, TicTacToeGame.username p = username) (TicTacToeGame.players game) →
  TicTacToeGame.game_over game = true →
  game_completion_times st !! game_id = Some t →
  get_game_state st s now =
    (JsonState game_id (TicTacToeGame.board game) (TicTacToeGame.current_player game)
               (TicTacToeGame.winner game)
               (fst <$> list_find (λ p, TicTacToeGame.username p = username)
                                  (TicTacToeGame.players game))
               (TicTacToeGame.username <$> TicTacToeGame.players game),
     if bool_decide (now - t > grace) then
       {| games := delete game_id (games st);
          rooms := delete game_id (rooms st);
          ACTIVE_SESSIONS := ACTIVE_SESSIONS st;
          game_completion_times := delete game_id (game_completion_times st);
          users := users st |}
     else st,
     s).
Proof.
  intros Hu Hg Hgame Hmember Hover Ht.
  unfold get_game_state. rewrite Hu, Hg. cbn. rewrite Hgame. cbn.
  by rewrite bool_decide_Exists_member, Ht, Hover by done.
Qed.

(** C5, as the code has it. Let a game be over with completion time [t]
    recorded for it. A poll by a member at a time [now <= t + 5] returns the
    snapshot and removes nothing. The first poll by a member at a time
    [now > t + 5] removes the room, the game and the recorded time, and
    still returns the snapshot; every poll after that removal is answered
    'Game not found'. *)
Theorem get_game_state_grace st s now username game_id game t :
  s_username s = Some username →
  s_game_id s = Some game_id →
  games st !! game_id = Some game →
  Exists (λ p, TicTacToeGame.username p = username) (TicTacToeGame.players game) →
  TicTacToeGame.game_over game = true →
  game_completion_times st !! game_id = Some t →
  let snapshot :=
    JsonState game_id (TicTacToeGame.board game) (TicTacToeGame.current_player game)
              (TicTacToeGame.winner game)
              (fst <$> list_find (λ p, TicTacToeGame.username p = username)
                                 (TicTacToeGame.players game))
              (TicTacToeGame.username <$> TicTacToeGame.players game) in
  (now ≤ t + grace → get_game_state st s now = (snapshot, st, s)) ∧
  (t + grace < now →
   ∃ st',
     get_game_state st s now = (snapshot, st', s) ∧
     games st' !! game_id = None ∧
     rooms st' !! game_id = None ∧
     game_completion_times st' !! game_id = None ∧
     ∀ s2 username2 later,
       s_username s2 = Some username2 → s_game_id s2 = Some game_id →
       get_game_state st' s2 later = (JsonError (Some GameNotFound), st', s2)).
Proof.
  intros Hu Hg Hgame Hmember Hover Ht snapshot.
  rewrite (get_game_state_member st s now username game_id game t) by done.
  split; intros Hnow.
  - by rewrite bool_decide_eq_false_2 by lia.
  - rewrite bool_decide_eq_true_2 by lia.
    eexists. split; [reflexivity |]. cbn.
    rewrite !lookup_delete_eq. split_and!; try done.
    intros s2 username2 later Hu2 Hg2.
    apply (get_game_state_not_found _ _ _ username2 game_id); [done .. |].
    cbn. apply lookup_delete_eq.
Qed.

Lemma get_game_state_grace_witness :
  ∃ snapshot st',
    get_game_state finished_at_100 (session_of alice_creates) 104
      = (snapshot, finished_at_100, session_of alice_creates) ∧
    get_game_state finished_at_100 (session_of alice_creates) 106
      = (snapshot, st', session_of alice_creates) ∧
    games st' !! "room1" = None.
Proof.
  assert (s_username (session_of alice_creates) = Some "alice") as Hu
    by (vm_compute; reflexivity).
  assert (s_game_id (session_of alice_creates) = Some "room1") as Hg
    by (vm_compute; reflexivity).
  assert (games finished_at_100 !! "room1" = Some finished_game) as Hgame
    by (vm_compute; reflexivity).
  assert (Exists (λ p, TicTacToeGame.username p = "alice")
                 (TicTacToeGame.players finished_game)) as Hmember
    by (apply Exists_cons_hd; vm_compute; reflexivity).
  assert (TicTacToeGame.game_over finished_game = true) as Hover
    by (vm_compute; reflexivity).
  assert (game_completion_times finished_at_100 !! "room1" = Some 100) as Ht
    by (vm_compute; reflexivity).
  destruct (get_game_state_grace finished_at_100 (session_of alice_creates) 104
              "alice" "room1" finished_game 100 Hu Hg Hgame Hmember Hover Ht)
    as [Hearly _].
  destruct (get_game_state_grace finished_at_100 (session_of alice_creates) 106
              "alice" "room1" finished_game 100 Hu Hg Hgame Hmember Hover Ht)
    as [_ Hlate].
  destruct Hlate as (st' & Hpoll & Hgone & _); [unfold grace; lia |].
  eexists _, st'. split; [apply Hearly; unfold grace; lia |].
  split; [exact Hpoll | exact Hgone].
Defined.

(** C5 as stated fails: the game of "room1" is over since time 100, and
    the poll of "alice" at time 106, after the grace period of 5, is
    answered with the snapshot, not with 'Game not found'. *)
Lemma poll_after_grace_returns_snapshot :
  game_completion_times finished_at_100 !! "room1" = Some 100 ∧
  reply_of (get_game_state finished_at_100 (session_of alice_creates) 106) =
    JsonState "room1" (grid "X" "X" "X" "O" "O" TicTacToeGame.blank
                            TicTacToeGame.blank TicTacToeGame.blank TicTacToeGame.blank)
              0 (Some (TicTacToeGame.Player 0)) (Some 0%nat) ["alice"; "bob"] ∧
  reply_of (get_game_state finished_at_100 (session_of alice_creates) 106) ≠
    JsonError (Some GameNotFound).
Proof.
  assert (reply_of (get_game_state finished_at_100 (session_of alice_creates) 106) =
    JsonState "room1" (grid "X" "X" "X" "O" "O" TicTacToeGame.blank
                            TicTacToeGame.blank TicTacToeGame.blank TicTacToeGame.blank)
              0 (Some (TicTacToeGame.Player 0)) (Some 0%nat) ["alice"; "bob"]) as Hreply
    by (vm_compute; reflexivity).
  split; [vm_compute; reflexivity |]. split; [exact Hreply |].
  rewrite Hreply. discriminate.
Qed.

(** The route [/move] stamps the completion time whenever the game is over
    after the call. *)
Lemma make_move_stamps st s row col now username game_id game ok game' sent :
  s_username s = Some username →
  s_game_id s = Some game_id →
  games st !! game_id = Some game →
  TicTacToeGame.make_move game (s_player_num s) row col = Ok (ok, game', sent) →
  TicTacToeGame.game_over game' = true →
  games (state_of (make_move st s row col now)) !! game_id = Some game' ∧
  game_completion_times (state_of (make_move st s row col now)) !! game_id = Some now.
Proof.
  intros Hu Hg Hgame Hmove Hover. unfold make_move, state_of.
  rewrite Hu, Hg, Hgame, Hmove. cbn. rewrite Hover.
  by rewrite !lookup_insert_eq.
Qed.

(** *** /join_room *)

(** The three refusals of [join_room], and the admission into a room whose
    game has one player bound. *)
Lemma join_room_checks st s username room_id :
  s_username s = Some username →
  (rooms st !! room_id = None →
   join_room st s room_id = (JsonError (Some RoomNotFound), st, s)) ∧
  (∀ room, rooms st !! room_id = Some room → r_status room ≠ waiting →
   join_room st s room_id = (JsonError (Some RoomNotWaiting), st, s)) ∧
  (∀ room, rooms st !! room_id = Some room → r_status room = waiting →
   username ∈ r_players room →
   join_room st s room_id = (JsonError (Some AlreadyMember), st, s)) ∧
  (∀ room game, rooms st !! room_id = Some room → r_status room = waiting →
   username ∉ r_players room →
   games st !! room_id = Some game →
   length (TicTacToeGame.players game) = 1%nat →
   reply_of (join_room st s room_id) = JsonRoom room_id (Some 1) ∧
   rooms (state_of (join_room st s room_id)) !! room_id =
     Some {| r_creator := r_creator room; r_players := r_players room ++ [username];
             r_status := playing; r_created_at := r_created_at room |} ∧
   s_player_num (session_of (join_room st s room_id)) = Some 1).
Proof.
  intros Hu. unfold join_room. rewrite Hu. split_and!.
  - by intros ->.
  - intros room -> Hst. by rewrite bool_decide_eq_true_2.
  - intros room -> Hst Hin.
    rewrite bool_decide_eq_false_2 by (by rewrite Hst; intros []).
    by rewrite bool_decide_eq_true_2.
  - intros room game -> Hst Hin -> Hlen.
    rewrite bool_decide_eq_false_2 by (by rewrite Hst; intros []).
    rewrite bool_decide_eq_false_2 by done.
    unfold TicTacToeGame.add_player. rewrite Hlen. cbn.
    split_and!; [done | apply lookup_insert_eq | done].
Qed.

(** C6, at the input where the code departs from it: "alice" creates
    "room1", "bob" joins, "alice" leaves and the room waits again with
    "bob" alone; "carol" is not a member, and her [join_room] answers
    success with player number [None]: the room takes her and turns to
    'playing', but the game keeps "alice" and "bob" as its players, because
    [leave_room] never removes a player from the game. *)
Theorem join_room_after_leave :
  rooms (state_of alice_leaves) !! "room1" =
    Some {| r_creator := "alice"; r_players := ["bob"];
            r_status := waiting; r_created_at := "t0" |} ∧
  reply_of carol_joins = JsonRoom "room1" None ∧
  s_player_num (session_of carol_joins) = None ∧
  rooms (state_of carol_joins) !! "room1" =
    Some {| r_creator := "alice"; r_players := ["bob"; "carol"];
            r_status := playing; r_created_at := "t0" |} ∧
  TicTacToeGame.players <$> games (state_of carol_joins) !! "room1" =
    Some [ {| TicTacToeGame.id := 0; TicTacToeGame.username := "alice" |};
           {| TicTacToeGame.id := 1; TicTacToeGame.username := "bob" |} ].
Proof. split_and!; vm_compute; reflexivity. Qed.

(** *** /leave_room *)

(** C7. When a member leaves through [leave_room]: from a room of two
    members the other member stays, alone, and the room is 'waiting' again,
    the game being kept; from a room of one member the room and its game
    are deleted from [rooms] and [games], whatever the state of the game. *)
Theorem leave_room_policy st s username room_id room :
  s_username s = Some username →
  s_room_id s = Some room_id →
  rooms st !! room_id = Some room →
  username ∈ r_players room →
  reply_of (leave_room st s) = JsonSuccess ∧
  (length (r_players room) = 2%nat →
   ∃ other,
     (r_players room = [username; other] ∨ r_players room = [other; username]) ∧
     rooms (state_of (leave_room st s)) !! room_id =
       Some {| r_creator := r_creator room; r_players := [other];
               r_status := waiting; r_created_at := r_created_at room |} ∧
     games (state_of (leave_room st s)) = games st) ∧
  (length (r_players room) = 1%nat →
   rooms (state_of (leave_room st s)) !! room_id = None ∧
   games (state_of (leave_room st s)) !! room_id = None).
Proof.
  intros Hu Hr Hroom Hin. unfold leave_room, reply_of, state_of, leave.
  rewrite Hu, Hr. cbn. rewrite Hroom, bool_decide_eq_true_2 by done.
  split; [done |]. split; intros Hlen.
  - destruct (r_players room) as [| x [| y [|]]] eqn:Hps; try discriminate Hlen.
    destruct (decide (x = username)) as [-> | Hx].
    + cbn. rewrite (bool_decide_eq_true_2 (username = username)) by done. cbn.
      exists y. split; [by left |]. split; [apply lookup_insert_eq | done].
    + assert (y = username) as ->.
      { apply list_elem_of_In in Hin. destruct Hin as [? | [? | []]]; [done | done]. }
      cbn. rewrite (bool_decide_eq_false_2 (x = username)) by done.
      rewrite (bool_decide_eq_true_2 (username = username)) by done. cbn.
      exists x. split; [by right |]. split; [apply lookup_insert_eq | done].
  - destruct (r_players room) as [| x [|]] eqn:Hps; try discriminate Hlen.
    assert (x = username) as ->.
    { apply list_elem_of_In in Hin. by destruct Hin as [? | []]. }
    cbn. rewrite (bool_decide_eq_true_2 (username = username)) by done. cbn.
    rewrite (bool_decide_eq_true_2 (0%nat = 0%nat)) by done. cbn.
    by rewrite !lookup_delete_eq.
Qed.

(** "alice" leaves "room1" where "bob" has joined her. *)
Lemma leave_room_policy_witness :
  ∃ other,
    rooms (state_of alice_leaves) !! "room1" =
      Some {| r_creator := "alice"; r_players := [other];
              r_status := waiting; r_created_at := "t0" |}.
Proof.
  destruct (leave_room_policy (state_of bob_joins) (session_of alice_creates)
              "alice" "room1"
              {| r_creator := "alice"; r_players := ["alice"; "bob"];
                 r_status := playing; r_created_at := "t0" |})
    as (_ & Htwo & _).
  - vm_compute; reflexivity.
  - vm_compute; reflexivity.
  - vm_compute; reflexivity.
  - apply list_elem_of_here.
  - destruct (Htwo eq_refl) as (other & _ & Hrooms & _).
    exists other. exact Hrooms.
Defined.

(** *** /create_room *)

(** C8, as the code has it. [create_room] looks at no other room: for a
    session with an identity it always answers success, puts the new room
    in 'waiting' with the identity as its only member and as player 0 of a
    new game, and leaves the rooms and games under other ids as they
    are. *)
Theorem create_room_allocates st s username room_id now :
  s_username s = Some username →
  reply_of (create_room st s room_id now) = JsonRoom room_id (Some 0) ∧
  rooms (state_of (create_room st s room_id now)) !! room_id =
    Some {| r_creator := username; r_players := [username];
            r_status := waiting; r_created_at := now |} ∧
  (TicTacToeGame.players <$> games (state_of (create_room st s room_id now)) !! room_id) =
    Some [ {| TicTacToeGame.id := 0; TicTacToeGame.username := username |} ] ∧
  (∀ other, other ≠ room_id →
     rooms (state_of (create_room st s room_id now)) !! other = rooms st !! other ∧
     games (state_of (create_room st s room_id now)) !! other = games st !! other).
Proof.
  intros Hu. unfold create_room, reply_of, state_of. rewrite Hu. cbn.
  split_and!; [done | apply lookup_insert_eq | by rewrite lookup_insert_eq |].
  intros other Hne. by rewrite !lookup_insert_ne.
Qed.

Lemma create_room_allocates_witness :
  reply_of alice_creates_again = JsonRoom "room2" (Some 0) ∧
  rooms (state_of alice_creates_again) !! "room1" = rooms (state_of alice_creates) !! "room1".
Proof.
  destruct (create_room_allocates (state_of alice_creates) (session_of alice_creates)
              "alice" "room2" "t1") as (Hreply & _ & _ & Hother).
  - vm_compute; reflexivity.
  - split; [exact Hreply |]. apply Hother. discriminate.
Defined.

(** C8 as stated fails: "alice", a member of "room1", creates "room2" and
    is then a member of both. *)
Lemma create_room_twice :
  member_of (state_of alice_creates) "alice" "room1" ∧
  reply_of alice_creates_again = JsonRoom "room2" (Some 0) ∧
  member_of (state_of alice_creates_again) "alice" "room1" ∧
  member_of (state_of alice_creates_again) "alice" "room2" ∧
  ¬ one_room_per_identity (state_of alice_creates_again).
Proof.
  assert (member_of (state_of alice_creates_again) "alice" "room1") as H1.
  { eexists. split; [vm_compute; reflexivity | apply list_elem_of_here]. }
  assert (member_of (state_of alice_creates_again) "alice" "room2") as H2.
  { eexists. split; [vm_compute; reflexivity | apply list_elem_of_here]. }
  split; [| split; [| split; [exact H1 | split; [exact H2 |]]]].
  - eexists. split; [vm_compute; reflexivity | apply list_elem_of_here].
  - vm_compute; reflexivity.
  - intros Hone. by specialize (Hone "alice" "room1" "room2" H1 H2).
Qed.

(** *** Sessions *)

(** C9, as the code has it. For any dictionaries and any session:
    - when the session holds no identity, each of [lobby], [create_room],
      [get_rooms], [join_room], [leave_room], [make_move] and
      [get_game_state] turns the request away (the redirect to the login
      page for [lobby], an error reply for the others) and changes neither
      the dictionaries nor the session;
    - when the session holds an identity and a token, and the live token
      recorded for that identity is another one, [lobby] redirects to the
      login page with the stale-session error, leaves the dictionaries as
      they are and clears the session;
    - when no live token is recorded for the session's identity, [lobby]
      serves the page, whatever token the session holds, and changes
      nothing. *)
Theorem session_checks st s :
  (s_username s = None →
   lobby st s = (RedirectLogin false, st, s) ∧
   ∀ room_id created row col now,
     create_room st s room_id created = (JsonError (Some NotLoggedIn), st, s) ∧
     get_rooms st s = (JsonError None, st, s) ∧
     join_room st s room_id = (JsonError (Some NotLoggedIn), st, s) ∧
     leave_room st s = (JsonError None, st, s) ∧
     make_move st s row col now = (JsonError (Some NotInGame), st, s) ∧
     get_game_state st s now = (JsonError None, st, s)) ∧
  (∀ username live token,
     s_username s = Some username →
     s_session_id s = Some token →
     ACTIVE_SESSIONS st !! username = Some live →
     live ≠ token →
     lobby st s = (RedirectLogin true, st, session_clear)) ∧
  (∀ username,
     s_username s = Some username →
     ACTIVE_SESSIONS st !! username = None →
     lobby st s = (RenderLobby username, st, s)).
Proof.
  split_and!.
  - intros Hnone. split.
    + unfold lobby. by rewrite Hnone.
    + intros room_id created row col now.
      unfold create_room, get_rooms, join_room, leave_room, make_move, get_game_state.
      by rewrite Hnone.
  - intros username live token Hname Htoken Hlive Hne.
    unfold lobby. rewrite Hname, Hlive, Htoken.
    by rewrite (bool_decide_eq_true_2 (live ≠ token)).
  - intros username Hname Hlive.
    unfold lobby. by rewrite Hname, Hlive.
Qed.

Lemma session_checks_witness :
  lobby (server_init ∅) session_clear = (RedirectLogin false, server_init ∅, session_clear) ∧
  lobby alice_relogged alice = (RedirectLogin true, alice_relogged, session_clear) ∧
  lobby alice_logged_out alice = (RenderLobby "alice", alice_logged_out, alice).
Proof.
  assert (ACTIVE_SESSIONS alice_relogged !! "alice" = Some "token-new") as Hlive
    by (vm_compute; reflexivity).
  assert (ACTIVE_SESSIONS alice_logged_out !! "alice" = None) as Hnone
    by (vm_compute; reflexivity).
  destruct (session_checks (server_init ∅) session_clear) as ((Hmissing & _) & _ & _);
    [reflexivity |].
  destruct (session_checks alice_relogged alice) as (_ & Hstale & _).
  destruct (session_checks alice_logged_out alice) as (_ & _ & Hserved).
  split_and!.
  - exact Hmissing.
  - apply (Hstale "alice" "token-new" "token-a"); [reflexivity | reflexivity | exact Hlive |].
    discriminate.
  - apply (Hserved "alice"); [reflexivity | exact Hnone].
Defined.

(** C9 as stated fails: after her logout no token is live for "alice", so
    the session she held is not valid; [lobby] serves it the page. *)
Lemma lobby_serves_without_live_token :
  ACTIVE_SESSIONS alice_logged_out !! "alice" = None ∧
  ¬ valid_session alice_logged_out alice ∧
  lobby alice_logged_out alice = (RenderLobby "alice", alice_logged_out, alice) ∧
  ¬ auth_failure (reply_of (lobby alice_logged_out alice)).
Proof.
  assert (ACTIVE_SESSIONS alice_logged_out !! "alice" = None) as Hnone
    by (vm_compute; reflexivity).
  assert (lobby alice_logged_out alice = (RenderLobby "alice", alice_logged_out, alice))
    as Hlobby by (unfold lobby; cbn [s_username alice logged_in]; by rewrite Hnone).
  split_and!; [done | | done |].
  - intros (username & token & [= <-] & _ & Hlive). by rewrite Hnone in Hlive.
  - rewrite Hlobby. by intros [].
Qed.

(** The JSON routes compare no token: with a newer token live for "alice",
    the session that holds the old one still creates a room. *)
Example create_room_with_stale_token :
  ¬ valid_session alice_relogged alice ∧
  reply_of (create_room alice_relogged alice "room1" "t0") = JsonRoom "room1" (Some 0).
Proof.
  split; [| reflexivity].
  intros (username & token & [= <-] & [= <-] & Hlive). vm_compute in Hlive. discriminate.
Qed.

(** *** The routes and the engine together *)

(** On a board, [make_move] raises only from the board lookup of its
    guard, that is before any assignment. *)
Lemma make_move_raise_in_guard self player_id row col e :
  wf_board (TicTacToeGame.board self) →
  TicTacToeGame.make_move self player_id row col = Raise e →
  TicTacToeGame.winner self = None ∧
  player_id = Some (TicTacToeGame.current_player self) ∧
  TicTacToeGame.cell (TicTacToeGame.board self) row col = Raise e.
Proof.
  intros Hwf Hmove.
  destruct (decide (TicTacToeGame.winner self = None)) as [Hw | Hw].
  2: { by rewrite make_move_rejected in Hmove by auto. }
  destruct (decide (player_id = Some (TicTacToeGame.current_player self))) as [-> | Hne].
  2: { by rewrite make_move_rejected in Hmove by auto. }
  destruct (TicTacToeGame.cell (TicTacToeGame.board self) row col) as [x | e'] eqn:Hcell.
  - destruct (decide (x = TicTacToeGame.blank)) as [-> | Hx].
    + destruct (make_move_accepted self row col Hwf Hw Hcell) as (? & ? & Hacc & _).
      by rewrite Hacc in Hmove.
    + by rewrite make_move_rejected in Hmove by eauto.
  - rewrite (make_move_raises _ _ _ e') in Hmove by done.
    by injection Hmove as ->.
Qed.

(** The route [/move] hands [row] and [col] to the game unchecked: for the
    player to move in a game in progress an index above 2 makes the request
    fail with [IndexError], the dictionaries being left as they were. *)
Lemma move_route_raises st s row col now username game_id game :
  s_username s = Some username →
  s_game_id s = Some game_id →
  games st !! game_id = Some game →
  in_progress game →
  s_player_num s = Some (TicTacToeGame.current_player game) →
  2 < row ∨ 2 < col →
  make_move st s row col now = (InternalError IndexError, st, s).
Proof.
  intros Hu Hg Hgame [Hwf _ Hw] Hp Hout. unfold make_move.
  rewrite Hu, Hg, Hgame, Hp.
  rewrite make_move_raises with (e := IndexError); [done | done |].
  apply cell_out_of_range; [done | lia].
Qed.

(** A draw played through the routes: each player's record counts one draw
    and one game, also after the extra request. *)
Example draw_recorded_once :
  TicTacToeGame.winner <$> games drawn_game !! "room1" = Some (Some TicTacToeGame.Draw) ∧
  users drawn_game !! "alice" =
    Some {| password := "hash"; wins := 0; losses := 0; draws := 1;
            games_played := Some 1 |} ∧
  users drawn_game !! "bob" =
    Some {| password := "hash"; wins := 0; losses := 0; draws := 1;
            games_played := Some 1 |}.
Proof. split_and!; vm_compute; reflexivity. Qed.

(** A request [/move] on a finished game is rejected, and stamps the
    completion time again. *)
Example rejected_move_restamps :
  reply_of (make_move finished_at_100 (session_of bob_joins) 2 2 103) =
    JsonMove false (grid "X" "X" "X" "O" "O" TicTacToeGame.blank
                         TicTacToeGame.blank TicTacToeGame.blank TicTacToeGame.blank)
             0 (Some (TicTacToeGame.Player 0)) ∧
  game_completion_times
    (state_of (make_move finished_at_100 (session_of bob_joins) 2 2 103)) !! "room1"
    = Some 103.
Proof. split; vm_compute; reflexivity. Qed.

(** ** make_move, case by case *)

(** The position of a cell in [cells]. *)
Lemma board_write_cells b row col x :
  wf_board b → -3 ≤ row < 3 → -3 ≤ col < 3 →
  let k := Z.to_nat (3 * (row mod 3) + col mod 3) in
  ∃ r r' b',
    getitem b row = Ok r ∧ setitem r col x = Ok r' ∧ setitem b row r' = Ok b' ∧
    wf_board b' ∧ (k < 9)%nat ∧
    (∀ old, TicTacToeGame.cell b row col = Ok old → cells b !! k = Some old) ∧
    cells b' = <[k := x]> (cells b).
Proof.
  intros (a0 & a1 & a2 & a3 & a4 & a5 & a6 & a7 & a8 & ->)%wf_board_grid Hr Hc.
  intros k; subst k.
  enum_index row; enum_index col;
    (eexists _, _, _;
     split_and!; [reflexivity .. | apply wf_board_of_grid | vm_compute; lia
                 | by intros old [= <-] | reflexivity]).
Qed.


Lemma cell_Raise_range b row col e :
  wf_board b → TicTacToeGame.cell b row col = Raise e →
  e = IndexError ∧ ¬ (-3 ≤ row < 3 ∧ -3 ≤ col < 3).
Proof.
  intros Hwf Hcell.
  destruct (decide (-3 ≤ row < 3 ∧ -3 ≤ col < 3)) as [[Hr Hc] | Hout].
  - destruct (cell_in_range b row col Hwf Hr Hc) as [x Hx]. congruence.
  - rewrite cell_out_of_range in Hcell by (done || lia). by injection Hcell as <-.
Qed.

(** The accepting path of [make_move], with the object it leaves. *)
Lemma make_move_accepted_exact self row col :
  wf_board (TicTacToeGame.board self) →
  TicTacToeGame.winner self = None →
  TicTacToeGame.cell (TicTacToeGame.board self) row col = Ok TicTacToeGame.blank →
  let slot := TicTacToeGame.current_player self in
  let k := Z.to_nat (3 * (row mod 3) + col mod 3) in
  ∃ b' won full,
    wf_board b' ∧ (k < 9)%nat ∧
    cells (TicTacToeGame.board self) !! k = Some TicTacToeGame.blank ∧
    cells b' = <[k := mark_of slot]> (cells (TicTacToeGame.board self)) ∧
    (won = true ↔ fills_a_line b' (mark_of slot)) ∧
    (full = true ↔ grid_full b') ∧
    TicTacToeGame.make_move self (Some slot) row col =
      Ok (true, after_move self b' won full,
          if won || full then TicTacToeGame.update_stats (after_move self b' won full)
          else []).
Proof.
  intros Hwf Hw Hcell slot k.
  destruct (cell_Ok_range _ _ _ _ Hwf Hcell) as [Hr Hc].
  destruct (board_write_cells (TicTacToeGame.board self) row col (mark_of slot) Hwf Hr Hc)
    as (r & r' & b' & Hget & Hset & Hset' & Hwf' & Hk & Hold & Hcells).
  destruct (check_winner_board_spec b' (mark_of slot) Hwf') as (won & Hcheck & Hwon).
  destruct (board_full_spec b' Hwf') as (full & Hfull & Hdraw).
  exists b', won, full. split_and!; try done; [by apply Hold |].
  unfold TicTacToeGame.make_move, TicTacToeGame.check_winner.
  rewrite Hw, Hcell, bind_Ok.
  rewrite (bool_decide_eq_false_2 (None ≠ None)) by (by intros []).
  rewrite (bool_decide_eq_false_2 (Some slot ≠ Some slot)) by (by intros []).
  rewrite (bool_decide_eq_false_2 (TicTacToeGame.blank ≠ TicTacToeGame.blank))
    by (by intros []).
  fold slot. rewrite symbol_mark_of, Hget, bind_Ok, Hset, bind_Ok, Hset', bind_Ok.
  cbn [TicTacToeGame.set_board TicTacToeGame.board].
  rewrite Hcheck, bind_Ok. unfold after_move. fold slot.
  destruct won; [done |]. rewrite Hfull, bind_Ok. by destruct full.
Qed.

(** Every call on a three by three board is a rejection, an [IndexError]
    raised by the guard, or an accepted move. *)
Lemma make_move_cases self player_id row col :
  wf_board (TicTacToeGame.board self) →
  let slot := TicTacToeGame.current_player self in
  (TicTacToeGame.make_move self player_id row col = Ok (false, self, []) ∧
   (TicTacToeGame.winner self ≠ None ∨ player_id ≠ Some slot ∨
    ∃ x, TicTacToeGame.cell (TicTacToeGame.board self) row col = Ok x ∧
         x ≠ TicTacToeGame.blank)) ∨
  (TicTacToeGame.make_move self player_id row col = Raise IndexError ∧
   TicTacToeGame.winner self = None ∧ player_id = Some slot ∧
   ¬ (-3 ≤ row < 3 ∧ -3 ≤ col < 3)) ∨
  (TicTacToeGame.winner self = None ∧ player_id = Some slot ∧
   TicTacToeGame.cell (TicTacToeGame.board self) row col = Ok TicTacToeGame.blank ∧
   ∃ self' sent, TicTacToeGame.make_move self player_id row col = Ok (true, self', sent)).
Proof.
  intros Hwf slot.
  destruct (decide (TicTacToeGame.winner self = None)) as [Hw | Hw].
  2: { left. split; [apply make_move_rejected |]; auto. }
  destruct (decide (player_id = Some slot)) as [-> | Hne].
  2: { left. split; [apply make_move_rejected |]; auto. }
  destruct (TicTacToeGame.cell (TicTacToeGame.board self) row col) as [x | e] eqn:Hcell.
  - destruct (decide (x = TicTacToeGame.blank)) as [-> | Hx].
    + right. right. split_and!; try done.
      destruct (make_move_accepted_exact self row col Hwf Hw Hcell)
        as (b' & won & full & _ & _ & _ & _ & _ & _ & Hmove).
      eauto.
    + left. split; [apply make_move_rejected |]; eauto.
  - destruct (cell_Raise_range _ _ _ _ Hwf Hcell) as [-> Hout].
    right. left. split_and!; try done. by apply make_move_raises.
Qed.

(** What a call that returns leaves behind: nothing new, or the object of
    an accepted move. *)
Lemma make_move_step self player_id row col ok self' sent :
  wf_board (TicTacToeGame.board self) →
  TicTacToeGame.make_move self player_id row col = Ok (ok, self', sent) →
  (ok = false ∧ self' = self ∧ sent = []) ∨
  (ok = true ∧ TicTacToeGame.winner self = None ∧
   ∃ b' won full k,
     wf_board b' ∧ (k < 9)%nat ∧
     cells (TicTacToeGame.board self) !! k = Some TicTacToeGame.blank ∧
     cells b' = <[k := mark_of (TicTacToeGame.current_player self)]>
                  (cells (TicTacToeGame.board self)) ∧
     (won = true ↔ fills_a_line b' (mark_of (TicTacToeGame.current_player self))) ∧
     (full = true ↔ grid_full b') ∧
     self' = after_move self b' won full).
Proof.
  intros Hwf Hmove.
  destruct (make_move_cases self player_id row col Hwf)
    as [[Hrej _] | [[Hraise _] | (Hw & -> & Hcell & _)]].
  - rewrite Hrej in Hmove. injection Hmove as <- <- <-. by left.
  - by rewrite Hraise in Hmove.
  - destruct (make_move_accepted_exact self row col Hwf Hw Hcell)
      as (b' & won & full & Hwf' & Hk & Hold & Hcells & Hwon & Hfull & Hacc).
    rewrite Hacc in Hmove. injection Hmove as <- <- <-.
    right. split_and!; try done.
    by exists b', won, full, (Z.to_nat (3 * (row mod 3) + col mod 3)).
Qed.

(** A property that every returning call keeps is kept by every sequence
    of calls. *)
Lemma play_keeps (P : TicTacToeGame.t → Prop) :
  (∀ self player_id row col ok self' sent,
     P self → TicTacToeGame.make_move self player_id row col = Ok (ok, self', sent) →
     P self') →
  ∀ calls self, P self → P (play self calls).1.
Proof.
  intros Hstep calls. induction calls as [| [[player_id row] col] calls IH]; intros self HP.
  - done.
  - cbn. destruct (TicTacToeGame.make_move self player_id row col)
      as [[[ok self'] sent] | e] eqn:Hmove.
    + specialize (IH self' (Hstep _ _ _ _ _ _ _ HP Hmove)).
      by destruct (play self' calls).
    + by apply IH.
Qed.

Lemma cells_grid a0 a1 a2 a3 a4 a5 a6 a7 a8 :
  cells (grid a0 a1 a2 a3 a4 a5 a6 a7 a8) = [a0; a1; a2; a3; a4; a5; a6; a7; a8].
Proof. reflexivity. Qed.

Lemma mark_of_0 : mark_of 0 = "X".
Proof. reflexivity. Qed.

Lemma mark_of_1 : mark_of 1 = "O".
Proof. reflexivity. Qed.

(** Writing a mark gives the other marks no new line. *)
Lemma line_after_write b b' k mark other :
  wf_board b → wf_board b' →
  cells b' = <[k := mark]> (cells b) →
  other ≠ mark →
  fills_a_line b' other → fills_a_line b other.
Proof.
  intros (a0 & a1 & a2 & a3 & a4 & a5 & a6 & a7 & a8 & ->)%wf_board_grid
         (c0 & c1 & c2 & c3 & c4 & c5 & c6 & c7 & c8 & ->)%wf_board_grid Hcells Hne.
  rewrite !cells_grid in Hcells. rewrite !fills_a_line_grid.
  do 9 (destruct k as [| k]; [injection Hcells as -> -> -> -> -> -> -> -> ->;
                              intuition congruence |]).
  injection Hcells as -> -> -> -> -> -> -> -> ->. done.
Qed.

(** ** Invariants of the game object *)

Lemma game_inv_step self player_id row col ok self' sent :
  game_inv self →
  TicTacToeGame.make_move self player_id row col = Ok (ok, self', sent) →
  game_inv self' ∧
  TicTacToeGame.players self' = TicTacToeGame.players self ∧
  TicTacToeGame.game_id self' = TicTacToeGame.game_id self.
Proof.
  intros Hinv Hmove. pose proof Hinv as [Hwf Hturn Hover Hwin].
  destruct (make_move_step _ _ _ _ _ _ _ Hwf Hmove)
    as [(_ & -> & _) | (_ & Hw & b' & won & full & k & Hwf' & _ & _ & _ & _ & _ & ->)];
    [done |].
  rewrite Hw in Hover.
  rewrite (bool_decide_eq_false_2 (None ≠ None)) in Hover by (by intros []).
  unfold after_move.
  destruct won; [| destruct full]; cbn; (split; [| done]).
  - split; cbn; [done | done | done |]. destruct Hturn as [-> | ->]; auto.
  - split; cbn; [done | done | done | auto].
  - split; cbn; [done | lia | by rewrite Hw | rewrite Hw; auto].
Qed.

Lemma count_insert {A} (P : A → Prop) `{!∀ x, Decision (P x)} (l : list A) k old x :
  l !! k = Some old →
  (length (filter P (<[k := x]> l)) + (if decide (P old) then 1 else 0) =
   length (filter P l) + (if decide (P x) then 1 else 0))%nat.
Proof.
  revert k. induction l as [| y l IH]; intros k Hk; [done |].
  destruct k as [| k]; cbn in Hk.
  - injection Hk as ->. change (<[0%nat := x]> (old :: l)) with (x :: l).
    rewrite !filter_cons.
    destruct (decide (P old)), (decide (P x)); cbn [length]; lia.
  - specialize (IH k Hk). change (<[S k := x]> (y :: l)) with (y :: <[k := x]> l).
    rewrite !filter_cons.
    destruct (decide (P y)); cbn [length]; rewrite ?Nat.add_succ_l; by rewrite IH.
Qed.

Lemma filled_after_write b b' k mark :
  cells b !! k = Some TicTacToeGame.blank →
  cells b' = <[k := mark]> (cells b) →
  mark ≠ TicTacToeGame.blank →
  filled b' = S (filled b).
Proof.
  intros Hold Hcells Hmark. unfold filled. rewrite Hcells.
  pose proof (count_insert (λ x, x ≠ TicTacToeGame.blank) _ _ _ mark Hold) as Hcount.
  destruct (decide (TicTacToeGame.blank ≠ TicTacToeGame.blank)); [done |].
  destruct (decide (mark ≠ TicTacToeGame.blank)); [lia | done].
Qed.

Lemma count_mark_after_write b b' k mark :
  cells b !! k = Some TicTacToeGame.blank →
  cells b' = <[k := mark]> (cells b) →
  mark ≠ TicTacToeGame.blank →
  count_mark mark b' = S (count_mark mark b) ∧
  ∀ other, other ≠ TicTacToeGame.blank → other ≠ mark →
           count_mark other b' = count_mark other b.
Proof.
  intros Hold Hcells Hm. unfold count_mark. rewrite Hcells. split.
  - pose proof (count_insert (λ x, x = mark) _ _ _ mark Hold) as Hcount.
    destruct (decide (TicTacToeGame.blank = mark)); [done |].
    destruct (decide (mark = mark)); [lia | done].
  - intros other Hother Hne.
    pose proof (count_insert (λ x, x = other) _ _ _ mark Hold) as Hcount.
    destruct (decide (TicTacToeGame.blank = other)); [done |].
    destruct (decide (mark = other)); [done | lia].
Qed.

Lemma filled_le_9 b : wf_board b → (filled b ≤ 9)%nat.
Proof.
  intros (a0 & a1 & a2 & a3 & a4 & a5 & a6 & a7 & a8 & ->)%wf_board_grid.
  unfold filled. rewrite cells_grid.
  etransitivity; [apply length_filter | done].
Qed.

Lemma mark_of_not_blank slot : mark_of slot ≠ TicTacToeGame.blank.
Proof. unfold mark_of. by case_bool_decide. Qed.

Lemma outcome_sound_step self player_id row col ok self' sent :
  game_inv self → outcome_sound self →
  TicTacToeGame.make_move self player_id row col = Ok (ok, self', sent) →
  outcome_sound self'.
Proof.
  intros [Hwf Hturn _ _] Hsound Hmove.
  destruct (make_move_step _ _ _ _ _ _ _ Hwf Hmove)
    as [(_ & -> & _) | (_ & Hw & b' & won & full & k & Hwf' & _ & _ & Hcells & Hwon & Hfull & ->)];
    [done |].
  unfold outcome_sound in Hsound. rewrite Hw in Hsound.
  destruct Hsound as (_ & HX & HO).
  assert (∀ other, other ≠ mark_of (TicTacToeGame.current_player self) →
                   ¬ fills_a_line (TicTacToeGame.board self) other →
                   ¬ fills_a_line b' other) as Hother.
  { intros other Hne Hno Hline. apply Hno.
    by eapply (line_after_write _ b'). }
  assert (won = false →
          ¬ fills_a_line b' "X" ∧ ¬ fills_a_line b' "O") as Hnone.
  { intros ->.
    assert (¬ fills_a_line b' (mark_of (TicTacToeGame.current_player self))) as Hno
      by by intros ?%Hwon.
    destruct Hturn as [Hcp | Hcp]; rewrite Hcp in *.
    - split; [exact Hno | by apply Hother].
    - split; [by apply Hother | exact Hno]. }
  assert (full = false → ¬ grid_full b') as Hleft by (by intros -> ?%Hfull).
  unfold outcome_sound, after_move.
  destruct won; [| destruct full];
    cbn [TicTacToeGame.winner TicTacToeGame.board TicTacToeGame.finish
         TicTacToeGame.set_board TicTacToeGame.set_current_player].
  - split; [by apply Hwon |].
    destruct Hturn as [Hcp | Hcp]; rewrite Hcp in *.
    + change (mark_of (1 - 0)) with "O". by apply Hother.
    + change (mark_of (1 - 1)) with "X". by apply Hother.
  - split; [by apply Hfull | by apply Hnone].
  - rewrite Hw. split; [by apply Hleft | by apply Hnone].
Qed.

Lemma marks_in_turn_step self player_id row col ok self' sent :
  game_inv self → marks_in_turn self →
  TicTacToeGame.make_move self player_id row col = Ok (ok, self', sent) →
  marks_in_turn self'.
Proof.
  intros [Hwf Hturn _ _] [Halpha Hcount] Hmove.
  destruct (make_move_step _ _ _ _ _ _ _ Hwf Hmove)
    as [(_ & -> & _) | (_ & Hw & b' & won & full & k & Hwf' & _ & Hold & Hcells & _ & _ & ->)];
    [done |].
  rewrite Hw in Hcount.
  assert (Forall (λ x, x = TicTacToeGame.blank ∨ x = "X" ∨ x = "O") (cells b')) as Halpha'.
  { rewrite Hcells. apply Forall_insert; [done |].
    destruct Hturn as [-> | ->]; auto. }
  destruct (count_mark_after_write _ _ _ _ Hold Hcells (mark_of_not_blank _))
    as [Hsame Hother].
  assert (Z.of_nat (count_mark "X" b') =
          Z.of_nat (count_mark "O" b') + (1 - TicTacToeGame.current_player self)) as Hnew.
  { destruct Hturn as [Hcp | Hcp]; rewrite Hcp in *.
    - change (mark_of 0) with "X" in *. rewrite Hsame, (Hother "O") by done. lia.
    - change (mark_of 1) with "O" in *. rewrite Hsame, (Hother "X") by done. lia. }
  unfold marks_in_turn, after_move.
  destruct won; [| destruct full];
    cbn [TicTacToeGame.winner TicTacToeGame.board TicTacToeGame.finish
         TicTacToeGame.current_player
         TicTacToeGame.set_board TicTacToeGame.set_current_player];
    (split; [done |]); rewrite ?Hw; lia.
Qed.

(** ** Further properties of the game object *)

Lemma add_player_full self name :
  (2 ≤ length (TicTacToeGame.players self))%nat →
  TicTacToeGame.add_player self name = (self, None).
Proof.
  intros Hlen. unfold TicTacToeGame.add_player.
  by rewrite bool_decide_eq_false_2 by lia.
Qed.

Lemma add_players_full self names :
  (2 ≤ length (TicTacToeGame.players self))%nat → add_players self names = self.
Proof.
  intros Hlen. induction names as [| name names IH]; [done |].
  change (add_players self (name :: names))
    with (add_players (TicTacToeGame.add_player self name).1 names).
  rewrite add_player_full by done. apply IH.
Qed.

(** X1. Starting from a new game, [add_player] binds the first two names
    offered, with the ids 0 and 1 in that order, and nothing else of the
    game changes; every later name is turned down. *)
Theorem add_players_binds_two game_id names :
  add_players (TicTacToeGame.init game_id) names =
    {| TicTacToeGame.board := TicTacToeGame.board (TicTacToeGame.init game_id);
       TicTacToeGame.players :=
         zip_with (λ i name, {| TicTacToeGame.id := i; TicTacToeGame.username := name |})
                  [0; 1] names;
       TicTacToeGame.current_player := 0;
       TicTacToeGame.game_id := game_id;
       TicTacToeGame.winner := None;
       TicTacToeGame.game_over := false |} ∧
  ∀ name, (2 ≤ length names)%nat →
          (TicTacToeGame.add_player (add_players (TicTacToeGame.init game_id) names) name).2
          = None.
Proof.
  destruct names as [| a [| b rest]]; [split; [done | cbn; lia] .. |].
  assert (add_players (TicTacToeGame.init game_id) (a :: b :: rest) =
          add_players (TicTacToeGame.init game_id) [a; b]) as Heq.
  { change (a :: b :: rest) with ([a; b] ++ rest).
    unfold add_players at 1. rewrite foldl_app. by apply add_players_full. }
  rewrite Heq. split; [done |].
  intros name _. by rewrite add_player_full.
Qed.

(** When a call is accepted. *)
Lemma make_move_accepted_iff self player_id row col :
  wf_board (TicTacToeGame.board self) →
  (∃ self' sent, TicTacToeGame.make_move self player_id row col = Ok (true, self', sent)) ↔
  TicTacToeGame.winner self = None ∧
  player_id = Some (TicTacToeGame.current_player self) ∧
  TicTacToeGame.cell (TicTacToeGame.board self) row col = Ok TicTacToeGame.blank.
Proof.
  intros Hwf. split.
  - intros (self' & sent & Hmove).
    destruct (make_move_cases self player_id row col Hwf)
      as [[Hrej _] | [[Hraise _] | (Hw & Hp & Hcell & _)]]; [congruence .. | done].
  - intros (Hw & -> & Hcell).
    destruct (make_move_accepted_exact self row col Hwf Hw Hcell)
      as (b' & won & full & _ & _ & _ & _ & _ & _ & Hmove).
    eauto.
Qed.

(** X2. On a three by three board [make_move] returns True exactly when
    the game has no winner yet, the caller is the player to move and the
    cell named by the indices exists and is empty. *)
Theorem make_move_true_iff self player_id row col :
  wf_board (TicTacToeGame.board self) →
  (∃ self' sent, TicTacToeGame.make_move self player_id row col = Ok (true, self', sent)) ↔
  TicTacToeGame.winner self = None ∧
  player_id = Some (TicTacToeGame.current_player self) ∧
  TicTacToeGame.cell (TicTacToeGame.board self) row col = Ok TicTacToeGame.blank.
Proof. apply make_move_accepted_iff. Qed.

Lemma make_move_true_iff_witness :
  ∃ self' sent,
    TicTacToeGame.make_move alice_bob_game (Some 0) 1 1 = Ok (true, self', sent).
Proof.
  apply (make_move_true_iff alice_bob_game (Some 0) 1 1).
  - apply alice_bob_game_in_progress.
  - split; [reflexivity |]. split; reflexivity.
Defined.

(** On integers, and on the booleans that Python indexes with as 1 and
    0, [make_move_json] is [make_move]. *)
Lemma make_move_json_index self player_id row col r c :
  as_index row = Ok r → as_index col = Ok c →
  TicTacToeGame.make_move_json self player_id row col =
  TicTacToeGame.make_move self player_id r c.
Proof.
  intros Hr Hc.
  unfold TicTacToeGame.make_move_json, TicTacToeGame.make_move,
    TicTacToeGame.cell_value, TicTacToeGame.cell, getitem_value, setitem_value.
  by rewrite Hr, Hc.
Qed.

Lemma as_index_raises v e : as_index v = Raise e → e = TypeError.
Proof. destruct v; cbn; congruence. Qed.

(** The guard's [self.board[row][col]]: the row is subscripted first. *)
Lemma cell_value_raises b row col :
  wf_board b →
  TicTacToeGame.cell_value b row col =
  match as_index row with
  | Raise e => Raise e
  | Ok r =>
      if bool_decide (-3 ≤ r < 3) then
        match as_index col with
        | Raise e => Raise e
        | Ok c => TicTacToeGame.cell b r c
        end
      else Raise IndexError
  end.
Proof.
  intros Hwf. unfold TicTacToeGame.cell_value, getitem_value.
  destruct (as_index row) as [r | e]; [| done]. rewrite bind_Ok.
  case_bool_decide as Hr.
  - destruct (getitem_in_range b r) as [line Hline]; [destruct Hwf; lia |].
    rewrite Hline, bind_Ok.
    destruct (as_index col) as [c | e]; [| done]. rewrite bind_Ok.
    unfold TicTacToeGame.cell. by rewrite Hline, bind_Ok.
  - rewrite getitem_out_of_range; [done | destruct Hwf; lia].
Qed.

(** X3. [make_move] with [row] and [col] of any type a JSON body can give
    them, on a three by three board. The call raises exactly when the game
    has no winner yet, the caller is the player to move and the guard
    cannot read [self.board[row][col]]; what it raises is
    - [TypeError] when [row] is neither an int nor a bool;
    - [IndexError] when [row] is an integer outside [-3 .. 2];
    - with [row] in range, [TypeError] when [col] is neither an int nor a
      bool, and [IndexError] when [col] is an integer outside [-3 .. 2].
    For a finished game or another caller the call returns False and
    leaves the game as it is, whatever the indices. *)
Theorem make_move_raises_iff self player_id row col e :
  wf_board (TicTacToeGame.board self) →
  (TicTacToeGame.make_move_json self player_id row col = Raise e ↔
   TicTacToeGame.winner self = None ∧
   player_id = Some (TicTacToeGame.current_player self) ∧
   ((as_index row = Raise TypeError ∧ e = TypeError) ∨
    (∃ r, as_index row = Ok r ∧ ¬ -3 ≤ r < 3 ∧ e = IndexError) ∨
    (∃ r, as_index row = Ok r ∧ -3 ≤ r < 3 ∧
          as_index col = Raise TypeError ∧ e = TypeError) ∨
    (∃ r c, as_index row = Ok r ∧ -3 ≤ r < 3 ∧
            as_index col = Ok c ∧ ¬ -3 ≤ c < 3 ∧ e = IndexError))) ∧
  (TicTacToeGame.winner self ≠ None ∨
   player_id ≠ Some (TicTacToeGame.current_player self) →
   TicTacToeGame.make_move_json self player_id row col = Ok (false, self, [])).
Proof.
  intros Hwf.
  assert (TicTacToeGame.winner self ≠ None ∨
          player_id ≠ Some (TicTacToeGame.current_player self) →
          TicTacToeGame.make_move_json self player_id row col = Ok (false, self, []))
    as Hrejected.
  { intros Hrej. unfold TicTacToeGame.make_move_json.
    case_bool_decide as Hover; [done |].
    case_bool_decide as Hturn; [done |].
    by destruct Hrej. }
  assert (TicTacToeGame.winner self = None →
          player_id = Some (TicTacToeGame.current_player self) →
          ∀ e', TicTacToeGame.cell_value (TicTacToeGame.board self) row col = Raise e' →
                TicTacToeGame.make_move_json self player_id row col = Raise e')
    as Hguard.
  { intros Hw -> e' Hcell. unfold TicTacToeGame.make_move_json. rewrite Hw, Hcell.
    rewrite (bool_decide_eq_false_2 (None ≠ None)) by (by intros []).
    by rewrite bool_decide_eq_false_2 by (by intros []). }
  split; [| exact Hrejected]. split.
  - intros Hmove.
    destruct (decide (TicTacToeGame.winner self = None)) as [Hw | Hw];
      [| rewrite Hrejected in Hmove by (by left); discriminate].
    destruct (decide (player_id = Some (TicTacToeGame.current_player self))) as [Hp | Hp];
      [| rewrite Hrejected in Hmove by (by right); discriminate].
    split; [done |]. split; [done |].
    destruct (as_index row) as [r | er] eqn:Hr.
    2: { apply as_index_raises in Hr as Her. subst er.
         rewrite (Hguard Hw Hp TypeError) in Hmove
           by (by rewrite cell_value_raises, Hr by done).
         left. split; congruence. }
    destruct (decide (-3 ≤ r < 3)) as [Hin | Hout].
    2: { rewrite (Hguard Hw Hp IndexError) in Hmove
           by (by rewrite cell_value_raises, Hr, bool_decide_eq_false_2 by done).
         right. left. exists r. split_and!; try done; congruence. }
    destruct (as_index col) as [c | ec] eqn:Hc.
    2: { apply as_index_raises in Hc as Hec. subst ec.
         rewrite (Hguard Hw Hp TypeError) in Hmove
           by (by rewrite cell_value_raises, Hr, bool_decide_eq_true_2, Hc by done).
         right. right. left. exists r. split_and!; try done; try lia; congruence. }
    rewrite (make_move_json_index self player_id row col r c Hr Hc) in Hmove.
    destruct (make_move_cases self player_id r c Hwf)
      as [[Hrej _] | [(Hraise & _ & _ & Hrc) | (_ & _ & _ & self' & sent & Hacc)]];
      [congruence | | congruence].
    right. right. right. exists r, c. split_and!; try done; try lia; congruence.
  - intros (Hw & Hp & Hwhy). apply Hguard; [done | done |].
    rewrite cell_value_raises by done.
    destruct Hwhy as [(-> & ->) | [(r & -> & Hr & ->) | [(r & -> & Hr & -> & ->) |
                       (r & c & -> & Hr & -> & Hc & ->)]]].
    + done.
    + by rewrite bool_decide_eq_false_2.
    + by rewrite bool_decide_eq_true_2.
    + rewrite bool_decide_eq_true_2 by done. apply cell_out_of_range; [done | lia].
Qed.

Lemma make_move_raises_iff_witness :
  TicTacToeGame.make_move_json alice_bob_game (Some 0) (VInt 0) (VStr "1") = Raise TypeError ∧
  TicTacToeGame.make_move_json alice_bob_game (Some 0) (VInt 0) (VInt (-4)) = Raise IndexError ∧
  TicTacToeGame.make_move_json alice_bob_game (Some 1) VNone VFloat =
    Ok (false, alice_bob_game, []).
Proof.
  assert (wf_board (TicTacToeGame.board alice_bob_game)) as Hwf
    by apply alice_bob_game_in_progress.
  split_and!.
  - apply (make_move_raises_iff alice_bob_game (Some 0) (VInt 0) (VStr "1") TypeError Hwf).
    split; [reflexivity |]. split; [reflexivity |].
    right. right. left. exists 0. split_and!; try reflexivity; lia.
  - apply (make_move_raises_iff alice_bob_game (Some 0) (VInt 0) (VInt (-4)) IndexError Hwf).
    split; [reflexivity |]. split; [reflexivity |].
    right. right. right. exists 0, (-4).
    split_and!; try reflexivity; lia.
  - apply (make_move_raises_iff alice_bob_game (Some 1) VNone VFloat IndexError Hwf).
    right. discriminate.
Defined.

Lemma add_players_keeps self names :
  TicTacToeGame.board (add_players self names) = TicTacToeGame.board self ∧
  TicTacToeGame.current_player (add_players self names) = TicTacToeGame.current_player self ∧
  TicTacToeGame.winner (add_players self names) = TicTacToeGame.winner self ∧
  TicTacToeGame.game_over (add_players self names) = TicTacToeGame.game_over self.
Proof.
  revert self. induction names as [| name names IH]; intros self; [done |].
  change (add_players self (name :: names))
    with (add_players (TicTacToeGame.add_player self name).1 names).
  destruct (IH (TicTacToeGame.add_player self name).1) as (-> & -> & -> & ->).
  unfold TicTacToeGame.add_player. by case_bool_decide.
Qed.

(** X4. Every sequence of calls keeps a game object well formed: the board
    stays three by three, the turn stays 0 or 1, [game_over] is true
    exactly when a winner is set, the winner is player 0, player 1 or the
    draw, and neither the players nor the game id change. *)
Theorem play_keeps_game_inv self calls :
  game_inv self →
  game_inv (play self calls).1 ∧
  TicTacToeGame.players (play self calls).1 = TicTacToeGame.players self ∧
  TicTacToeGame.game_id (play self calls).1 = TicTacToeGame.game_id self.
Proof.
  intros Hinv.
  apply (play_keeps (λ g, game_inv g ∧
                          TicTacToeGame.players g = TicTacToeGame.players self ∧
                          TicTacToeGame.game_id g = TicTacToeGame.game_id self));
    [| done].
  intros g player_id row col ok g' sent (Hg & Hpl & Hid) Hmove.
  destruct (game_inv_step _ _ _ _ _ _ _ Hg Hmove) as (Hg' & Hpl' & Hid').
  split; [done |]. split; congruence.
Qed.

Lemma game_inv_init game_id names :
  game_inv (add_players (TicTacToeGame.init game_id) names).
Proof.
  destruct (add_players_keeps (TicTacToeGame.init game_id) names) as (Hb & Hc & Hw & Ho).
  split; rewrite ?Hb, ?Hc, ?Hw, ?Ho; cbn; auto.
  apply (wf_board_of_grid TicTacToeGame.blank TicTacToeGame.blank TicTacToeGame.blank
           TicTacToeGame.blank TicTacToeGame.blank TicTacToeGame.blank
           TicTacToeGame.blank TicTacToeGame.blank TicTacToeGame.blank).
Qed.

Lemma play_keeps_game_inv_witness :
  game_inv (play alice_bob_game [(Some 0, 0, 0); (Some 1, 5, 5); (Some 1, 1, 1)]).1.
Proof.
  apply (play_keeps_game_inv alice_bob_game).
  apply (game_inv_init "room1" ["alice"; "bob"]).
Defined.

(** X5. No sequence of calls changes a cell that holds a mark: what is on
    the board stays there. *)
Theorem play_never_overwrites self calls k x :
  wf_board (TicTacToeGame.board self) →
  cells (TicTacToeGame.board self) !! k = Some x →
  x ≠ TicTacToeGame.blank →
  cells (TicTacToeGame.board (play self calls).1) !! k = Some x.
Proof.
  intros Hwf Hk Hx.
  apply (play_keeps (λ g, wf_board (TicTacToeGame.board g) ∧
                          cells (TicTacToeGame.board g) !! k = Some x)); [| done].
  intros g player_id row col ok g' sent [Hg Hgk] Hmove.
  destruct (make_move_step _ _ _ _ _ _ _ Hg Hmove)
    as [(_ & -> & _) | (_ & _ & b' & won & full & k' & Hwf' & _ & Hold & Hcells & _ & _ & ->)];
    [done |].
  assert (TicTacToeGame.board (after_move g b' won full) = b') as ->
    by (unfold after_move; by destruct won, full).
  split; [done |]. rewrite Hcells.
  rewrite list_lookup_insert_ne; [done |]. intros ->. congruence.
Qed.

Lemma play_never_overwrites_witness :
  cells (TicTacToeGame.board (play alice_to_win [(Some 0, 0, 0); (Some 0, 0, 2)]).1)
    !! 0%nat = Some "X".
Proof.
  apply (play_never_overwrites alice_to_win); [| reflexivity | discriminate].
  apply alice_to_win_in_progress.
Defined.

(** X6. The outcome always agrees with the board. If it does before a
    sequence of calls it does after: while no winner is set no mark fills
    a line and a cell is still empty; a winner's mark fills a line and the
    other mark fills none; a draw means a full grid where no mark fills a
    line. *)
Theorem play_outcome_sound self calls :
  game_inv self → outcome_sound self → outcome_sound (play self calls).1.
Proof.
  intros Hinv Hsound.
  apply (play_keeps (λ g, game_inv g ∧ outcome_sound g)); [| done].
  intros g player_id row col ok g' sent [Hg Hs] Hmove. split.
  - by destruct (game_inv_step _ _ _ _ _ _ _ Hg Hmove).
  - by eapply outcome_sound_step.
Qed.

Lemma fills_a_line_blank_grid mark :
  mark ≠ TicTacToeGame.blank →
  ¬ fills_a_line (TicTacToeGame.board (TicTacToeGame.init "room1")) mark.
Proof.
  intros Hm Hline. apply (fills_a_line_grid TicTacToeGame.blank) in Hline.
  repeat destruct Hline as [(? & _) | Hline]; try done.
  by destruct Hline as (? & _).
Qed.

Lemma outcome_sound_new_game : outcome_sound alice_bob_game.
Proof.
  split; [| split; by apply fills_a_line_blank_grid].
  intros Hfull. apply (grid_full_grid TicTacToeGame.blank) in Hfull.
  by destruct Hfull as (? & _).
Qed.

Lemma play_outcome_sound_witness :
  outcome_sound
    (play alice_bob_game
          [(Some 0, 0, 0); (Some 1, 1, 0); (Some 0, 0, 1); (Some 1, 1, 1); (Some 0, 0, 2)]).1.
Proof.
  apply (play_outcome_sound alice_bob_game).
  - apply (game_inv_init "room1" ["alice"; "bob"]).
  - apply outcome_sound_new_game.
Defined.

(** X7. The marks are laid in turn. If the board holds only "X", "O" and
    empty cells, with as many "X" as "O" when player 0 is to move and one
    more when player 1 is, the same holds after every sequence of calls
    (once the game is over the player to move is the one who moved last). *)
Theorem play_marks_in_turn self calls :
  game_inv self → marks_in_turn self → marks_in_turn (play self calls).1.
Proof.
  intros Hinv Hmarks.
  apply (play_keeps (λ g, game_inv g ∧ marks_in_turn g)); [| done].
  intros g player_id row col ok g' sent [Hg Hs] Hmove. split.
  - by destruct (game_inv_step _ _ _ _ _ _ _ Hg Hmove).
  - by eapply marks_in_turn_step.
Qed.

Lemma marks_in_turn_new_game : marks_in_turn alice_bob_game.
Proof. split; [by repeat constructor; left | reflexivity]. Qed.

Lemma play_marks_in_turn_witness :
  marks_in_turn (play alice_bob_game [(Some 0, 0, 0); (Some 1, 1, 0); (Some 0, 0, 1)]).1.
Proof.
  apply (play_marks_in_turn alice_bob_game).
  - apply (game_inv_init "room1" ["alice"; "bob"]).
  - apply marks_in_turn_new_game.
Defined.

(** X8. Each accepted call fills one more cell, so a sequence of calls on
    a board with [n] marks has at most [9 - n] calls accepted, whatever
    its length. *)
Theorem play_accepts_at_most self calls :
  wf_board (TicTacToeGame.board self) →
  (filled (TicTacToeGame.board (play self calls).1) =
     filled (TicTacToeGame.board self) + accepted self calls)%nat ∧
  (accepted self calls ≤ 9 - filled (TicTacToeGame.board self))%nat.
Proof.
  intros Hwf.
  assert (filled (TicTacToeGame.board (play self calls).1) =
            filled (TicTacToeGame.board self) + accepted self calls ∧
          wf_board (TicTacToeGame.board (play self calls).1))%nat as [Heq Hwf'].
  { revert self Hwf.
    induction calls as [| [[player_id row] col] calls IH]; intros self Hwf.
    - cbn. split; [lia | done].
    - cbn. destruct (TicTacToeGame.make_move self player_id row col)
        as [[[ok self'] sent] | e] eqn:Hmove; [| by apply IH].
      destruct (make_move_step _ _ _ _ _ _ _ Hwf Hmove)
        as [(-> & -> & _) |
            (-> & _ & b' & won & full & k & Hwf' & _ & Hold & Hcells & _ & _ & ->)].
      + destruct (IH self Hwf) as [Heq Hwf']. destruct (play self calls). cbn in *.
        split; [lia | done].
      + assert (TicTacToeGame.board (after_move self b' won full) = b') as Hb
          by (unfold after_move; by destruct won, full).
        destruct (IH (after_move self b' won full)) as [Heq Hwf'']; [by rewrite Hb |].
        rewrite Hb in Heq.
        rewrite (filled_after_write _ b' k _ Hold Hcells (mark_of_not_blank _)) in Heq.
        destruct (play (after_move self b' won full) calls). cbn in *.
        split; [lia | done]. }
  split; [done |]. pose proof (filled_le_9 _ Hwf'). lia.
Qed.

Lemma play_accepts_at_most_witness :
  (accepted alice_to_win [(Some 0, 0, 0); (Some 0, 0, 2); (Some 1, 2, 2)]%Z ≤ 5)%nat.
Proof.
  apply (play_accepts_at_most alice_to_win
           [(Some 0, 0, 0); (Some 0, 0, 2); (Some 1, 2, 2)]).
  apply alice_to_win_in_progress.
Defined.

(** ** The invariant of the dictionaries *)

Lemma server_ok_start us : server_ok (server_init us).
Proof.
  split; cbn; intros *; rewrite ?lookup_empty; try done.
Qed.

(** The invariant looks at [games], [rooms] and [game_completion_times]
    only. *)
Lemma server_ok_same st st' :
  games st' = games st → rooms st' = rooms st →
  game_completion_times st' = game_completion_times st →
  server_ok st → server_ok st'.
Proof.
  intros Hg Hr Ht [H1 H2 H3 H4 H5].
  split; rewrite ?Hg, ?Hr, ?Ht; done.
Qed.

Lemma players_ok_add_player self name :
  players_ok self → players_ok (TicTacToeGame.add_player self name).1.
Proof.
  unfold players_ok, TicTacToeGame.add_player. intros Hok.
  case_bool_decide as Hlen; [| done]. cbn.
  destruct (TicTacToeGame.players self) as [| [i a] [| [j b] [|]]]; cbn in *;
    try lia; by simplify_eq.
Qed.

Lemma add_player_keeps self name :
  let self' := (TicTacToeGame.add_player self name).1 in
  TicTacToeGame.board self' = TicTacToeGame.board self ∧
  TicTacToeGame.current_player self' = TicTacToeGame.current_player self ∧
  TicTacToeGame.winner self' = TicTacToeGame.winner self ∧
  TicTacToeGame.game_over self' = TicTacToeGame.game_over self ∧
  TicTacToeGame.game_id self' = TicTacToeGame.game_id self ∧
  (length (TicTacToeGame.players self) ≤ length (TicTacToeGame.players self'))%nat ∧
  (length (TicTacToeGame.players self) = 1%nat →
   length (TicTacToeGame.players self') = 2%nat).
Proof.
  unfold TicTacToeGame.add_player. case_bool_decide as Hlen; cbn.
  - rewrite length_app. cbn. split_and!; try done; lia.
  - split_and!; try done. lia.
Qed.

Lemma game_ok_add_player self name :
  game_inv self ∧ outcome_sound self ∧ marks_in_turn self ∧ players_ok self →
  let self' := (TicTacToeGame.add_player self name).1 in
  game_inv self' ∧ outcome_sound self' ∧ marks_in_turn self' ∧ players_ok self'.
Proof.
  intros ([Hwf Hturn Hover Hwin] & Hsound & Hmarks & Hpl) self'.
  destruct (add_player_keeps self name) as (Hb & Hc & Hw & Ho & _).
  fold self' in Hb, Hc, Hw, Ho.
  split_and!.
  - split; by rewrite ?Hb, ?Hc, ?Hw, ?Ho.
  - unfold outcome_sound. by rewrite Hb, Hw.
  - unfold marks_in_turn. by rewrite Hb, Hw, Hc.
  - by apply players_ok_add_player.
Qed.

Lemma game_ok_new room_id username :
  let g := (TicTacToeGame.add_player (TicTacToeGame.init room_id) username).1 in
  game_inv g ∧ outcome_sound g ∧ marks_in_turn g ∧ players_ok g ∧
  TicTacToeGame.game_id g = room_id.
Proof.
  cbn. split_and!; try done.
  - apply (game_inv_init room_id [username]).
  - split; [| split; by apply fills_a_line_blank_grid].
    intros Hfull. apply (grid_full_grid TicTacToeGame.blank) in Hfull.
    by destruct Hfull as (? & _).
  - split; [by repeat constructor; left | reflexivity].
Qed.

Lemma create_room_ok st s room_id now :
  server_ok st → server_ok (state_of (create_room st s room_id now)).
Proof.
  intros Hok. unfold create_room, state_of.
  destruct (s_username s) as [username |]; [| done]. cbn.
  destruct Hok as [H1 H2 H3 H4 H5]. split; cbn.
  - intros rid. destruct (decide (rid = room_id)) as [-> | Hne].
    + rewrite !lookup_insert_eq. by split.
    + rewrite !lookup_insert_ne by done. apply H1.
  - intros rid r. destruct (decide (rid = room_id)) as [-> | Hne].
    + rewrite lookup_insert_eq. intros [= <-]. split; cbn; [| by left].
      apply NoDup_singleton.
    + rewrite lookup_insert_ne by done. apply H2.
  - intros rid g. destruct (decide (rid = room_id)) as [-> | Hne].
    + rewrite lookup_insert_eq. intros [= <-]. apply game_ok_new.
    + rewrite lookup_insert_ne by done. apply H3.
  - intros rid r g. destruct (decide (rid = room_id)) as [-> | Hne].
    + rewrite !lookup_insert_eq. by intros [= <-] [= <-].
    + rewrite !lookup_insert_ne by done. apply H4.
  - intros rid g. destruct (decide (rid = room_id)) as [-> | Hne].
    + rewrite lookup_insert_eq. by intros [= <-].
    + rewrite lookup_insert_ne by done. apply H5.
Qed.

Lemma join_room_ok st s room_id :
  server_ok st → server_ok (state_of (join_room st s room_id)).
Proof.
  intros Hok. unfold join_room, state_of.
  destruct (s_username s) as [username |]; [| done].
  destruct (rooms st !! room_id) as [room |] eqn:Hroom; [| done].
  case_bool_decide as Hstatus; [done |].
  case_bool_decide as Hin; [done |].
  pose proof Hok as [H1 H2 H3 H4 H5].
  destruct (games st !! room_id) as [g |] eqn:Hgame.
  2: { destruct (proj1 (H1 room_id)) as [g Hg]; [by rewrite Hroom | congruence]. }
  destruct (TicTacToeGame.add_player g username) as [g' player_num] eqn:Hadd.
  assert (g' = (TicTacToeGame.add_player g username).1) as -> by by rewrite Hadd.
  destruct (add_player_keeps g username) as (_ & _ & _ & Hover & Hid & Hmore & Htwo).
  destruct (H2 _ _ Hroom) as [Hnodup Hshape].
  destruct (H3 _ _ Hgame) as (Hg1 & Hg2 & Hg3 & Hg4 & Hg5).
  assert (length (r_players room) = 1%nat) as Hone.
  { destruct Hshape as [[? _] | [_ Hp]]; [done |].
    assert (r_status room = waiting) by (by destruct (r_status room); [| destruct Hstatus]).
    congruence. }
  cbn. split; cbn.
  - intros rid. destruct (decide (rid = room_id)) as [-> | Hne].
    + rewrite !lookup_insert_eq. by split.
    + rewrite !lookup_insert_ne by done. apply H1.
  - intros rid r. destruct (decide (rid = room_id)) as [-> | Hne].
    + rewrite lookup_insert_eq. intros [= <-]. split; cbn.
      * apply NoDup_app. split; [done |]. split; [| apply NoDup_singleton].
        intros x Hx ->%list_elem_of_singleton. done.
      * right. rewrite length_app, Hone. done.
    + rewrite lookup_insert_ne by done. apply H2.
  - intros rid g0. destruct (decide (rid = room_id)) as [-> | Hne].
    + rewrite lookup_insert_eq. intros [= <-].
      destruct (game_ok_add_player g username) as (? & ? & ? & ?); [done |].
      split_and!; try done. congruence.
    + rewrite lookup_insert_ne by done. apply H3.
  - intros rid r g0. destruct (decide (rid = room_id)) as [-> | Hne].
    + rewrite !lookup_insert_eq. intros [= <-] [= <-]. cbn.
      rewrite length_app, Hone. cbn.
      pose proof (H4 _ _ _ Hroom Hgame) as Hseat. rewrite Hone in Hseat.
      destruct (decide (length (TicTacToeGame.players g) = 1%nat)) as [Hl | Hl].
      * rewrite (Htwo Hl). done.
      * lia.
    + rewrite !lookup_insert_ne by done. apply H4.
  - intros rid g0. destruct (decide (rid = room_id)) as [-> | Hne].
    + rewrite lookup_insert_eq. intros [= <-]. rewrite Hover. by apply H5.
    + rewrite lookup_insert_ne by done. apply H5.
Qed.

Lemma list_remove_NoDup x l : NoDup l → NoDup (list_remove x l).
Proof.
  induction 1 as [| y l Hy Hl IH]; cbn; [constructor |].
  case_bool_decide; [done |]. constructor; [| done].
  intros Hin. apply Hy. clear -Hin.
  induction l as [| z l IH]; cbn in Hin; [done |].
  case_bool_decide; [by right |].
  apply elem_of_cons in Hin as [-> | Hin]; [by left | right; auto].
Qed.

Lemma list_remove_length x l : x ∈ l → S (length (list_remove x l)) = length l.
Proof.
  induction l as [| y l IH]; cbn; [by intros ?%not_elem_of_nil |].
  intros Hin. case_bool_decide as Hy; [done |]. cbn. f_equal. apply IH.
  apply elem_of_cons in Hin as [-> | Hin]; done.
Qed.

Lemma leave_ok st username room_id :
  server_ok st → server_ok (leave st username room_id).
Proof.
  intros Hok. unfold leave.
  destruct (rooms st !! room_id) as [room |] eqn:Hroom; [| done].
  case_bool_decide as Hin; [| done].
  pose proof Hok as [H1 H2 H3 H4 H5].
  destruct (H2 _ _ Hroom) as [Hnodup Hshape].
  pose proof (list_remove_length _ _ Hin) as Hlen.
  case_bool_decide as Hempty.
  - split; cbn.
    + intros rid. destruct (decide (rid = room_id)) as [-> | Hne].
      * rewrite !lookup_delete_eq. by split; intros [].
      * rewrite !lookup_delete_ne by done. apply H1.
    + intros rid r. destruct (decide (rid = room_id)) as [-> | Hne].
      * by rewrite lookup_delete_eq.
      * rewrite lookup_delete_ne by done. apply H2.
    + intros rid g. destruct (decide (rid = room_id)) as [-> | Hne].
      * by rewrite lookup_delete_eq.
      * rewrite lookup_delete_ne by done. apply H3.
    + intros rid r g. destruct (decide (rid = room_id)) as [-> | Hne].
      * by rewrite lookup_delete_eq.
      * rewrite !lookup_delete_ne by done. apply H4.
    + intros rid g. destruct (decide (rid = room_id)) as [-> | Hne].
      * by rewrite lookup_delete_eq.
      * rewrite lookup_delete_ne by done. apply H5.
  - assert (length (list_remove username (r_players room)) = 1%nat) as Hone
      by (destruct Hshape as [[? _] | [? _]]; lia).
    rewrite (bool_decide_eq_true_2 _ Hone).
    split; cbn; try done.
    + intros rid. destruct (decide (rid = room_id)) as [-> | Hne].
      * rewrite lookup_insert_eq, <- H1, Hroom. by split.
      * rewrite lookup_insert_ne by done. apply H1.
    + intros rid r. destruct (decide (rid = room_id)) as [-> | Hne].
      * rewrite lookup_insert_eq. intros [= <-]. split; cbn; [| by left].
        by apply list_remove_NoDup.
      * rewrite lookup_insert_ne by done. apply H2.
    + intros rid r g. destruct (decide (rid = room_id)) as [-> | Hne].
      * rewrite lookup_insert_eq. intros [= <-] Hg. cbn.
        pose proof (H4 _ _ _ Hroom Hg). lia.
      * rewrite lookup_insert_ne by done. apply H4.
Qed.

Lemma leave_room_ok st s :
  server_ok st → server_ok (state_of (leave_room st s)).
Proof.
  intros Hok. unfold leave_room, state_of.
  destruct (s_username s) as [username |]; [| done]. cbn.
  destruct (s_room_id s) as [room_id |]; [| done]. by apply leave_ok.
Qed.

Lemma make_move_ok st s row col now :
  server_ok st → server_ok (state_of (make_move st s row col now)).
Proof.
  intros Hok. unfold make_move, state_of.
  destruct (s_username s) as [username |]; [| done].
  destruct (s_game_id s) as [game_id |]; [| done].
  destruct (games st !! game_id) as [g |] eqn:Hgame; [| done].
  destruct (TicTacToeGame.make_move g (s_player_num s) row col)
    as [[[ok g'] sent] | e] eqn:Hmove; [| done].
  pose proof Hok as [H1 H2 H3 H4 H5].
  destruct (H3 _ _ Hgame) as (Hg1 & Hg2 & Hg3 & Hg4 & Hg5).
  destruct (game_inv_step _ _ _ _ _ _ _ Hg1 Hmove) as (Hg1' & Hpl & Hid).
  cbn. split; cbn.
  - intros rid. destruct (decide (rid = game_id)) as [-> | Hne].
    + rewrite lookup_insert_eq, H1, Hgame. by split.
    + rewrite lookup_insert_ne by done. apply H1.
  - done.
  - intros rid g0. destruct (decide (rid = game_id)) as [-> | Hne].
    + rewrite lookup_insert_eq. intros [= <-]. split_and!; try done.
      * apply (outcome_sound_step g _ _ _ _ _ _ Hg1 Hg2 Hmove).
      * apply (marks_in_turn_step g _ _ _ _ _ _ Hg1 Hg3 Hmove).
      * unfold players_ok. by rewrite Hpl.
      * congruence.
    + rewrite lookup_insert_ne by done. apply H3.
  - intros rid r g0. destruct (decide (rid = game_id)) as [-> | Hne].
    + rewrite lookup_insert_eq. intros Hr [= <-]. rewrite Hpl. by eapply H4.
    + rewrite lookup_insert_ne by done. apply H4.
  - intros rid g0. destruct (decide (rid = game_id)) as [-> | Hne].
    + rewrite lookup_insert_eq. intros [= <-] Hover. rewrite Hover.
      by rewrite lookup_insert_eq.
    + rewrite lookup_insert_ne by done. intros Hg0 Hover.
      destruct (TicTacToeGame.game_over g'); [| by eapply H5].
      rewrite lookup_insert_ne by done. by eapply H5.
Qed.

Lemma get_game_state_ok st s now :
  server_ok st → server_ok (state_of (get_game_state st s now)).
Proof.
  intros Hok. unfold get_game_state, state_of.
  destruct (s_username s) as [username |]; [| done].
  destruct (s_game_id s) as [game_id |]; [| done]. cbn.
  destruct (games st !! game_id) as [g |] eqn:Hgame; [| done]. cbn.
  case_bool_decide; [| done]. cbn.
  destruct (game_completion_times st !! game_id) as [done_at |]; [| done].
  destruct (TicTacToeGame.game_over g && bool_decide (now - done_at > grace)); [| done].
  destruct Hok as [H1 H2 H3 H4 H5]. split; cbn.
  - intros rid. destruct (decide (rid = game_id)) as [-> | Hne].
    + rewrite !lookup_delete_eq. by split; intros [].
    + rewrite !lookup_delete_ne by done. apply H1.
  - intros rid r. destruct (decide (rid = game_id)) as [-> | Hne].
    + by rewrite lookup_delete_eq.
    + rewrite lookup_delete_ne by done. apply H2.
  - intros rid g0. destruct (decide (rid = game_id)) as [-> | Hne].
    + by rewrite lookup_delete_eq.
    + rewrite lookup_delete_ne by done. apply H3.
  - intros rid r g0. destruct (decide (rid = game_id)) as [-> | Hne].
    + by rewrite lookup_delete_eq.
    + rewrite !lookup_delete_ne by done. apply H4.
  - intros rid g0. destruct (decide (rid = game_id)) as [-> | Hne].
    + by rewrite lookup_delete_eq.
    + rewrite !lookup_delete_ne by done. apply H5.
Qed.

Lemma login_state hash_password st s method error f session_id :
  let st' := (login hash_password st s method error f session_id).1.2 in
  games st' = games st ∧ rooms st' = rooms st ∧
  game_completion_times st' = game_completion_times st ∧ users st' = users st.
Proof. unfold login, begin_session. repeat case_match; done. Qed.

Lemma register_state hash_password st s method f session_id :
  let st' := (register hash_password st s method f session_id).1.2 in
  games st' = games st ∧ rooms st' = rooms st ∧
  game_completion_times st' = game_completion_times st.
Proof. unfold register, begin_session. repeat case_match; done. Qed.

Lemma handle_ok hash_password st s req :
  server_ok st → server_ok (handle hash_password st s req).1.
Proof.
  intros Hok. destruct req; cbn.
  - unfold index. repeat case_match; done.
  - unfold lobby. repeat case_match; done.
  - by apply create_room_ok.
  - unfold get_rooms. by case_match.
  - by apply join_room_ok.
  - unfold game. repeat case_match; done.
  - by apply leave_room_ok.
  - by apply make_move_ok.
  - by apply get_game_state_ok.
  - destruct (login_state hash_password st s method error f session_id) as (? & ? & ? & _).
    by apply (server_ok_same st).
  - destruct (register_state hash_password st s method f session_id) as (? & ? & ?).
    by apply (server_ok_same st).
  - unfold logout. cbn. case_match; [| done]. by apply (server_ok_same st).
Qed.

(** The invariant holds in every state the process can reach. *)
Lemma reachable_ok hash_password st :
  reachable hash_password st → server_ok st.
Proof.
  induction 1 as [us | st s req _ IH].
  - apply server_ok_start.
  - by apply handle_ok.
Qed.

(** X9. In every state the process can reach, whatever the requests and
    the sessions they carried: the rooms and the games have the same ids;
    a room has one member and waits or two distinct members and plays;
    every game is well formed, its outcome agrees with its board, its marks
    were laid in turn, its players carry the ids 0 and 1 in order and its
    id is its key; a room never has more members than its game has
    players; and a finished game has a completion time recorded. *)
Theorem reachable_server_ok hash_password st :
  reachable hash_password st → server_ok st.
Proof. apply reachable_ok. Qed.

Lemma reachable_server_ok_witness : server_ok (state_of bob_joins).
Proof.
  apply (reachable_server_ok (λ secret, secret)).
  apply (reachable_request _ (state_of alice_creates) bob (JoinRoom "room1")).
  apply (reachable_request _ (server_init ∅) alice (CreateRoom "room1" "t0")).
  apply reachable_start.
Defined.

(** X10. In a state the process can reach [join_room] never fails with an
    exception: the game of a room that is in [rooms] is in [games]. *)
Theorem join_room_never_raises hash_password st s room_id e :
  reachable hash_password st →
  reply_of (join_room st s room_id) ≠ InternalError e.
Proof.
  intros [Hsame _ _ _ _]%reachable_ok. unfold join_room, reply_of.
  destruct (s_username s) as [username |]; [| done].
  destruct (rooms st !! room_id) as [room |] eqn:Hroom; [| done].
  case_bool_decide; [done |]. case_bool_decide; [done |].
  destruct (games st !! room_id) as [g |] eqn:Hgame.
  - by destruct (TicTacToeGame.add_player g _).
  - destruct (proj1 (Hsame room_id)) as [g Hg]; [by rewrite Hroom | congruence].
Qed.

Lemma join_room_never_raises_witness :
  reply_of (join_room (state_of alice_creates) bob "room1") ≠ InternalError KeyError.
Proof.
  apply (join_room_never_raises (λ secret, secret)).
  apply (reachable_request _ (server_init ∅) alice (CreateRoom "room1" "t0")).
  apply reachable_start.
Defined.

(** X11. In a state the process can reach, a finished game has a
    completion time [t] recorded, and a poll by one of its players at any
    time after [t + 5] removes the game, its room and the time. *)
Theorem finished_game_is_collected hash_password st s username game_id g :
  reachable hash_password st →
  s_username s = Some username →
  s_game_id s = Some game_id →
  games st !! game_id = Some g →
  Exists (λ p, TicTacToeGame.username p = username) (TicTacToeGame.players g) →
  TicTacToeGame.game_over g = true →
  ∃ t, game_completion_times st !! game_id = Some t ∧
       ∀ now, t + grace < now →
         let st' := state_of (get_game_state st s now) in
         games st' !! game_id = None ∧ rooms st' !! game_id = None ∧
         game_completion_times st' !! game_id = None.
Proof.
  intros [_ _ _ _ Hstamped]%reachable_ok Hu Hg Hgame Hmember Hover.
  destruct (Hstamped _ _ Hgame Hover) as [t Ht]. exists t. split; [done |].
  intros now Hnow.
  rewrite (get_game_state_member st s now username game_id g t) by done.
  rewrite bool_decide_eq_true_2 by lia. cbn.
  by rewrite !lookup_delete_eq.
Qed.

Lemma finished_at_100_reachable : reachable (λ secret, secret) finished_at_100.
Proof.
  apply (reachable_request _ _ (session_of alice_creates) (Move 0 2 100)).
  apply (reachable_request _ _ (session_of bob_joins) (Move 1 1 40)).
  apply (reachable_request _ _ (session_of alice_creates) (Move 0 1 30)).
  apply (reachable_request _ _ (session_of bob_joins) (Move 1 0 20)).
  apply (reachable_request _ _ (session_of alice_creates) (Move 0 0 10)).
  apply (reachable_request _ (state_of alice_creates) bob (JoinRoom "room1")).
  apply (reachable_request _ (server_init ∅) alice (CreateRoom "room1" "t0")).
  apply reachable_start.
Qed.

Lemma finished_game_is_collected_witness :
  ∃ t, game_completion_times finished_at_100 !! "room1" = Some t.
Proof.
  destruct (finished_game_is_collected (λ secret, secret) finished_at_100
              (session_of alice_creates) "alice" "room1" finished_game)
    as (t & Ht & _).
  - apply finished_at_100_reachable.
  - vm_compute; reflexivity.
  - vm_compute; reflexivity.
  - vm_compute; reflexivity.
  - apply Exists_cons_hd. vm_compute; reflexivity.
  - vm_compute; reflexivity.
  - exists t. exact Ht.
Defined.

(** ** The statistics store and the accounts *)

Lemma update_user_stats_lookup username r us v :
  update_user_stats username r us !! v =
  if decide (v = username) then
    (λ u, {| password := password u;
             wins := wins u + (if r is win then 1 else 0);
             losses := losses u + (if r is loss then 1 else 0);
             draws := draws u + (if r is draw then 1 else 0);
             games_played := Some (default 0 (games_played u) + 1) |}) <$> us !! v
  else us !! v.
Proof.
  unfold update_user_stats.
  destruct (decide (v = username)) as [-> | Hne].
  - destruct (us !! username) as [u |] eqn:Hu.
    + rewrite lookup_insert_eq. cbn. destruct r; cbn; repeat f_equal; lia.
    + by rewrite Hu.
  - destruct (us !! username); [by rewrite lookup_insert_ne | done].
Qed.

(** What a sequence of calls does to one record. *)
Lemma record_all_lookup sent us username :
  password <$> record_all sent us !! username = password <$> us !! username ∧
  ((∀ u, us !! username = Some u → tally_ok u) →
   ∀ u, record_all sent us !! username = Some u → tally_ok u).
Proof.
  revert us. induction sent as [| [name r] sent IH]; intros us; [done |].
  change (record_all ((name, r) :: sent) us)
    with (record_all sent (update_user_stats name r us)).
  destruct (IH (update_user_stats name r us)) as [Hpw Htally].
  rewrite update_user_stats_lookup in Hpw, Htally. split.
  - rewrite Hpw. case_decide; [| done]. by destruct (us !! username).
  - intros Hok. apply Htally. intros u.
    case_decide; [| apply Hok].
    destruct (us !! username) as [u0 |]; [| done]. intros [= <-].
    specialize (Hok u0 eq_refl). unfold tally_ok in *. cbn. rewrite Hok. cbn.
    f_equal. destruct r; lia.
Qed.

(** X12. The calls to [update_user_stats] never add or remove a user and
    never touch a password, and a record whose games count is the sum of
    its wins, losses and draws keeps that property. *)
Theorem record_all_keeps_accounts sent us username :
  password <$> record_all sent us !! username = password <$> us !! username ∧
  ((∀ u, us !! username = Some u → tally_ok u) →
   ∀ u, record_all sent us !! username = Some u → tally_ok u).
Proof. apply record_all_lookup. Qed.

Lemma record_all_keeps_accounts_witness :
  ∃ u, record_all [("alice", win); ("bob", loss)] two_users !! "alice" = Some u ∧
       tally_ok u.
Proof.
  eexists. split; [vm_compute; reflexivity |].
  refine (proj2 (record_all_keeps_accounts [("alice", win); ("bob", loss)] two_users
                   "alice") _ _ _).
  - intros u Hu. vm_compute in Hu. injection Hu as <-. reflexivity.
  - vm_compute; reflexivity.
Defined.

Lemma record_all_is_Some sent us username :
  is_Some (record_all sent us !! username) ↔ is_Some (us !! username).
Proof.
  destruct (record_all_lookup sent us username) as [Hpw _].
  rewrite <- !fmap_is_Some with (f := password). by rewrite Hpw.
Qed.

(** X13. Every request keeps the accounts in order: a live token always
    belongs to a registered user, and every record counts its games
    right. *)
Theorem handle_keeps_accounts_ok hash_password st s req :
  accounts_ok st → accounts_ok (handle hash_password st s req).1.
Proof.
  intros [Hlive Htally]. destruct req; cbn.
  - unfold index. repeat case_match; done.
  - unfold lobby. repeat case_match; done.
  - unfold create_room. by case_match.
  - unfold get_rooms. by case_match.
  - unfold join_room. repeat case_match; done.
  - unfold game. repeat case_match; done.
  - unfold leave_room, leave. repeat case_match; done.
  - unfold make_move. repeat case_match; try done; cbn;
      (split; cbn;
       [ intros name Hname; apply record_all_is_Some; auto
       | intros name u; apply record_all_lookup; apply Htally ]).
  - unfold get_game_state. repeat case_match; done.
  - unfold login, begin_session, is_user_logged_in.
    repeat case_match; try done. cbn. split; cbn; [| done].
    intros name. destruct (decide (name = strip (default EmptyString (f_username f))))
      as [-> | Hne].
    + intros _. eauto.
    + rewrite lookup_insert_ne by done. apply Hlive.
  - unfold register, begin_session.
    repeat case_match; try done. cbn. split; cbn.
    + intros name. destruct (decide (name = strip (default EmptyString (f_username f))))
        as [-> | Hne].
      * rewrite !lookup_insert_eq. eauto.
      * rewrite !lookup_insert_ne by done. apply Hlive.
    + intros name u. destruct (decide (name = strip (default EmptyString (f_username f))))
        as [-> | Hne].
      * rewrite lookup_insert_eq. by intros [= <-].
      * rewrite lookup_insert_ne by done. apply Htally.
  - unfold logout. cbn. destruct (s_username s) as [username |]; [| done].
    split; cbn; [| done].
    intros name. destruct (decide (name = username)) as [-> | Hne].
    + rewrite lookup_delete_eq. by intros [].
    + rewrite lookup_delete_ne by done. apply Hlive.
Qed.

Lemma accounts_ok_two_users : accounts_ok (server_init two_users).
Proof.
  split; cbn.
  - intros name. rewrite lookup_empty. by intros [].
  - intros name u Hu. unfold two_users in Hu.
    apply lookup_insert_Some in Hu as [[_ <-] | [_ Hu]]; [done |].
    by apply lookup_singleton_Some in Hu as [_ <-].
Qed.

Lemma handle_keeps_accounts_ok_witness :
  accounts_ok
    (handle (λ secret, secret) (server_init two_users) anonymous
            (Register POST (credentials "carol" "s3cret") "token-c")).1.
Proof.
  apply (handle_keeps_accounts_ok (λ secret, secret)).
  apply accounts_ok_two_users.
Defined.

(** ** Sessions: /login, /register, /logout *)

(** While a token is live for a user, every login under that user name is
    refused and changes nothing, whatever password it carries. *)
Lemma login_refused_while_live hash_password st s error f session_id :
  is_Some (ACTIVE_SESSIONS st !! strip (default EmptyString (f_username f))) →
  ∃ refusal,
    login hash_password st s POST error f session_id = (LoginPage (Some refusal), st, s).
Proof.
  intros Hlive. unfold login, is_user_logged_in.
  destruct (users st !! _) as [u |]; [| eauto].
  case_bool_decide; [| eauto]. rewrite bool_decide_eq_true_2 by done. eauto.
Qed.

(** X14. One live session per identity. When [login] succeeds, no token
    was live for the user, the new token is the live one, the session
    carries it and [lobby] serves it; and in any state where a token is
    live for that user, every login under the same user name is refused
    and changes nothing, whatever password it carries. *)
Theorem login_single_session hash_password st s error f session_id st' s' :
  login hash_password st s POST error f session_id = (ToLobby, st', s') →
  let username := strip (default EmptyString (f_username f)) in
  ACTIVE_SESSIONS st !! username = None ∧
  ACTIVE_SESSIONS st' !! username = Some session_id ∧
  s_username s' = Some username ∧ s_session_id s' = Some session_id ∧
  lobby st' s' = (RenderLobby username, st', s') ∧
  ∀ st2 s2 error2 f2 session_id2,
    is_Some (ACTIVE_SESSIONS st2 !! username) →
    strip (default EmptyString (f_username f2)) = username →
    ∃ refusal,
      login hash_password st2 s2 POST error2 f2 session_id2 =
        (LoginPage (Some refusal), st2, s2).
Proof.
  intros Hlogin username. unfold login in Hlogin. fold username in Hlogin.
  destruct (users st !! username) as [u |] eqn:Hu; [| done].
  case_bool_decide as Hpw; [| done].
  unfold is_user_logged_in in Hlogin. case_bool_decide as Hlive; [done |].
  cbn in Hlogin. injection Hlogin as <- <-.
  assert (ACTIVE_SESSIONS st !! username = None) as Hfree.
  { destruct (ACTIVE_SESSIONS st !! username) eqn:E; [| done]. destruct Hlive. eauto. }
  split_and!; cbn; try done.
  - apply lookup_insert_eq.
  - unfold lobby. cbn. rewrite lookup_insert_eq.
    by rewrite bool_decide_eq_false_2 by (by intros []).
  - intros st2 s2 error2 f2 session_id2 Hlive2 Hname.
    apply (login_refused_while_live hash_password st2 s2 error2 f2 session_id2).
    by rewrite Hname.
Qed.

Lemma login_single_session_witness :
  ∃ st' s',
    login (λ secret, secret) (state_of dave_logs_out) anonymous POST None
          (credentials " dave " "s3cret") "token-e" = (ToLobby, st', s') ∧
    ACTIVE_SESSIONS st' !! "dave" = Some "token-e".
Proof.
  eexists _, _. split; [vm_compute; reflexivity |].
  refine (proj1 (proj2 (login_single_session (λ secret, secret) (state_of dave_logs_out)
            anonymous None (credentials " dave " "s3cret") "token-e" _ _ _))).
  vm_compute; reflexivity.
Defined.

(** X15. Registration, logout and login compose: after a successful
    [register] the user is logged in, so a login with the same form is
    refused as already in use; after [logout] with the session that
    [register] left, a login with the same form succeeds. *)
Theorem register_logout_login hash_password st s f session_id st1 s1 :
  register hash_password st s POST f session_id = (ToLobby, st1, s1) →
  (∀ s2 error session_id2,
     login hash_password st1 s2 POST error f session_id2 =
       (LoginPage (Some AccountInUse), st1, s2)) ∧
  (∀ s2 error session_id2,
     (login hash_password (state_of (logout st1 s1)) s2 POST error f session_id2).1.1
       = ToLobby).
Proof.
  intros Hreg. unfold register in Hreg.
  set (username := strip (default EmptyString (f_username f))) in *.
  set (secret := default EmptyString (f_password f)) in *.
  destruct (bool_decide (username = EmptyString) || (String.length username <? 3)%nat);
    [done |].
  destruct (bool_decide (secret = EmptyString) || (String.length secret <? 4)%nat);
    [done |].
  case_bool_decide; [done |]. cbn in Hreg. injection Hreg as <- <-.
  split; intros s2 error session_id2; unfold login, is_user_logged_in, logout, state_of;
    fold username; fold secret; cbn; rewrite lookup_insert_eq; cbn;
    rewrite (bool_decide_eq_true_2 (hash_password secret = hash_password secret)) by done.
  - rewrite lookup_insert_eq. by rewrite bool_decide_eq_true_2 by eauto.
  - rewrite lookup_delete_eq. by rewrite bool_decide_eq_false_2 by (by intros []).
Qed.

Lemma register_logout_login_witness :
  (login (λ secret, secret) (state_of dave_logs_out) anonymous POST None
         (credentials "dave" "s3cret") "token-e").1.1 = ToLobby.
Proof.
  refine (proj2 (register_logout_login (λ secret, secret) (server_init ∅) anonymous
                   (credentials "dave" "s3cret") "token-d" _ _ _) anonymous None "token-e").
  vm_compute; reflexivity.
Defined.

(** ** Rooms: how the routes compose *)

(** X16. A room that one identity creates and a second one joins: the
    joiner gets player number 1, the room plays with the two members in
    order of arrival, its game binds them to the ids 0 and 1, and any
    further [join_room] is refused because the room no longer waits. *)
Theorem create_then_join st s1 s2 creator joiner room_id now :
  s_username s1 = Some creator →
  s_username s2 = Some joiner →
  creator ≠ joiner →
  let st1 := state_of (create_room st s1 room_id now) in
  let st2 := state_of (join_room st1 s2 room_id) in
  reply_of (join_room st1 s2 room_id) = JsonRoom room_id (Some 1) ∧
  rooms st2 !! room_id =
    Some {| r_creator := creator; r_players := [creator; joiner];
            r_status := playing; r_created_at := now |} ∧
  TicTacToeGame.players <$> games st2 !! room_id =
    Some [ {| TicTacToeGame.id := 0; TicTacToeGame.username := creator |};
           {| TicTacToeGame.id := 1; TicTacToeGame.username := joiner |} ] ∧
  ∀ s3 third, s_username s3 = Some third →
    join_room st2 s3 room_id = (JsonError (Some RoomNotWaiting), st2, s3).
Proof.
  intros Hc Hj Hne st1 st2.
  assert (join_room st1 s2 room_id =
          (JsonRoom room_id (Some 1),
           {| games := <[room_id :=
                 (TicTacToeGame.add_player
                    (TicTacToeGame.add_player (TicTacToeGame.init room_id) creator).1
                    joiner).1]> (games st1);
              rooms := <[room_id := {| r_creator := creator;
                                       r_players := [creator; joiner];
                                       r_status := playing; r_created_at := now |}]>
                         (rooms st1);
              ACTIVE_SESSIONS := ACTIVE_SESSIONS st1;
              game_completion_times := game_completion_times st1;
              users := users st1 |},
           {| s_username := s_username s2; s_session_id := s_session_id s2;
              s_game_id := Some room_id; s_player_num := Some 1;
              s_room_id := Some room_id |})) as Hjoin.
  { subst st1. unfold join_room, create_room, state_of. rewrite Hc, Hj. cbn.
    rewrite !lookup_insert_eq. cbn.
    rewrite (bool_decide_eq_false_2 (waiting ≠ waiting)) by (by intros []).
    rewrite (bool_decide_eq_false_2 (joiner ∈ [creator]))
      by (by intros ?%list_elem_of_singleton).
    done. }
  subst st2. rewrite Hjoin. unfold reply_of, state_of. cbn.
  rewrite !lookup_insert_eq. split_and!; try done.
  intros s3 third Hthird. unfold join_room. rewrite Hthird. cbn.
  rewrite lookup_insert_eq. cbn.
  by rewrite (bool_decide_eq_true_2 (playing ≠ waiting)).
Qed.

Lemma create_then_join_witness :
  reply_of bob_joins = JsonRoom "room1" (Some 1).
Proof.
  apply (create_then_join (server_init ∅) alice bob "alice" "bob" "room1" "t0");
    [reflexivity | reflexivity | discriminate].
Defined.

(** X17. Creating a room under a fresh id and leaving it at once puts
    the dictionaries back as they were. *)
Theorem create_then_leave st s username room_id now :
  s_username s = Some username →
  rooms st !! room_id = None →
  games st !! room_id = None →
  let created := create_room st s room_id now in
  leave_room (state_of created) (session_of created) =
    (JsonSuccess, st,
     {| s_username := s_username s; s_session_id := s_session_id s;
        s_game_id := None; s_player_num := None; s_room_id := None |}).
Proof.
  intros Hu Hroom Hgame created. subst created.
  unfold create_room, leave_room, leave, state_of, session_of. rewrite Hu. cbn.
  rewrite lookup_insert_eq. cbn.
  rewrite bool_decide_eq_true_2 by apply list_elem_of_here.
  rewrite (bool_decide_eq_true_2 (username = username)) by done. cbn.
  rewrite !delete_insert_eq, !delete_id by done.
  by destruct st.
Qed.

Lemma create_then_leave_witness :
  state_of (leave_room (state_of alice_creates) (session_of alice_creates)) = server_init ∅.
Proof.
  change (state_of alice_creates) with
    (state_of (create_room (server_init ∅) alice "room1" "t0")).
  change (session_of alice_creates) with
    (session_of (create_room (server_init ∅) alice "room1" "t0")).
  rewrite (create_then_leave (server_init ∅) alice "alice" "room1" "t0");
    reflexivity.
Defined.

(** X18. A request leaves alone every room and every game but the one it
    is about. *)
Theorem other_rooms_untouched hash_password st s req room_id :
  target s req ≠ Some room_id →
  rooms (handle hash_password st s req).1 !! room_id = rooms st !! room_id ∧
  games (handle hash_password st s req).1 !! room_id = games st !! room_id.
Proof.
  intros Hother. destruct req; cbn in *.
  - unfold index. repeat case_match; done.
  - unfold lobby. repeat case_match; done.
  - unfold create_room. case_match; [| done]. cbn.
    rewrite !lookup_insert_ne by congruence. done.
  - unfold get_rooms. by case_match.
  - unfold join_room. repeat case_match; try done; cbn;
      rewrite ?lookup_insert_ne by congruence; done.
  - unfold game. repeat case_match; done.
  - unfold leave_room, leave. repeat case_match; try done; cbn;
      rewrite ?lookup_insert_ne, ?lookup_delete_ne by congruence; done.
  - unfold make_move. repeat case_match; try done; cbn;
      rewrite ?lookup_insert_ne by congruence; done.
  - unfold get_game_state. repeat case_match; try done; cbn;
      rewrite ?lookup_delete_ne; try done; simplify_option_eq; congruence.
  - by destruct (login_state hash_password st s method error f session_id) as (-> & -> & _).
  - by destruct (register_state hash_password st s method f session_id) as (-> & -> & _).
  - unfold logout. cbn. by case_match.
Qed.

Lemma other_rooms_untouched_witness :
  games (state_of (make_move (state_of alice_creates_again) (session_of alice_creates_again)
                            0 0 5)) !! "room1"
  = games (state_of alice_creates_again) !! "room1".
Proof.
  apply (other_rooms_untouched (λ secret, secret) (state_of alice_creates_again)
           (session_of alice_creates_again) (Move 0 0 5) "room1").
  discriminate.
Defined.

(** X19. A poll changes the dictionaries only when it removes a finished
    game: unless the caller is a player of the game of its session, that
    game is over and its recorded completion time is more than 5 units
    old, [get_game_state] leaves everything as it is; and it never changes
    the session. *)
Theorem get_game_state_changes_only_when_due st s now :
  session_of (get_game_state st s now) = s ∧
  (state_of (get_game_state st s now) = st ∨
   ∃ username game_id g t,
     s_username s = Some username ∧ s_game_id s = Some game_id ∧
     games st !! game_id = Some g ∧
     Exists (λ p, TicTacToeGame.username p = username) (TicTacToeGame.players g) ∧
     TicTacToeGame.game_over g = true ∧
     game_completion_times st !! game_id = Some t ∧ t + grace < now).
Proof.
  unfold get_game_state, session_of, state_of.
  destruct (s_username s) as [username |] eqn:Hu; [| by split; [| left]].
  destruct (s_game_id s) as [game_id |] eqn:Hg; [| by split; [| left]]. cbn.
  destruct (games st !! game_id) as [g |] eqn:Hgame; [| by split; [| left]]. cbn.
  case_bool_decide as Hmember; [| by split; [| left]]. cbn. split; [done |].
  destruct (game_completion_times st !! game_id) as [t |] eqn:Ht; [| by left].
  destruct (TicTacToeGame.game_over g) eqn:Hover; [| by left]. cbn.
  case_bool_decide as Hdue; [| by left].
  right. exists username, game_id, g, t. split_and!; try done. lia.
Qed.

(** X20. In a state the process can reach, the rooms [get_rooms] lists
    for a session are exactly the rooms that [join_room] lets this session
    into. *)
Theorem listed_rooms_can_be_joined hash_password st s username room_id :
  reachable hash_password st →
  s_username s = Some username →
  (∃ listed entry, reply_of (get_rooms st s) = JsonRooms listed ∧
                   listed !! room_id = Some entry) ↔
  (∃ player_num, reply_of (join_room st s room_id) = JsonRoom room_id player_num).
Proof.
  intros [Hsame _ _ _ _]%reachable_ok Hu.
  unfold get_rooms, join_room, reply_of. rewrite Hu. cbn. split.
  - intros (listed & entry & [= <-] & Hentry).
    rewrite lookup_fmap in Hentry.
    destruct (filter _ (rooms st) !! room_id) as [room |] eqn:Hroom; [| done].
    apply map_lookup_filter_Some in Hroom as (Hroom & Hwait & Hnot). cbn in *.
    rewrite Hroom.
    rewrite bool_decide_eq_false_2 by (by rewrite Hwait; intros []).
    rewrite bool_decide_eq_false_2 by done.
    destruct (proj1 (Hsame room_id)) as [g Hg]; [by rewrite Hroom |].
    rewrite Hg. destruct (TicTacToeGame.add_player g username). eauto.
  - intros (player_num & Hjoin).
    destruct (rooms st !! room_id) as [room |] eqn:Hroom; [| done].
    case_bool_decide as Hwait; [done |]. case_bool_decide as Hin; [done |].
    eexists _, _. split; [done |].
    rewrite lookup_fmap.
    erewrite (proj2 (map_lookup_filter_Some _ _ _ _)); [done |].
    split; [done |]. cbn. split; [| done].
    by destruct (r_status room); [| destruct Hwait].
Qed.

Lemma listed_rooms_can_be_joined_witness :
  ∃ player_num,
    reply_of (join_room (state_of alice_creates) bob "room1") = JsonRoom "room1" player_num.
Proof.
  apply (listed_rooms_can_be_joined (λ secret, secret) (state_of alice_creates) bob
           "bob" "room1").
  - apply (reachable_request _ (server_init ∅) alice (CreateRoom "room1" "t0")).
    apply reachable_start.
  - reflexivity.
  - eexists _, _. split; [reflexivity | vm_compute; reflexivity].
Defined.

(** ** str.strip *)

Lemma chars_rev_app s1 s2 :
  list_ascii_of_string (String.rev_app s1 s2) =
  reverse (list_ascii_of_string s1) ++ list_ascii_of_string s2.
Proof.
  revert s2. induction s1 as [| c s1 IH]; intros s2; [done |].
  change (String.rev_app (String c s1) s2) with (String.rev_app s1 (String c s2)).
  rewrite IH.
  change (list_ascii_of_string (String c s2)) with (c :: list_ascii_of_string s2).
  change (list_ascii_of_string (String c s1)) with (c :: list_ascii_of_string s1).
  by rewrite reverse_cons, <- app_assoc.
Qed.

Lemma chars_rev s :
  list_ascii_of_string (String.rev s) = reverse (list_ascii_of_string s).
Proof. unfold String.rev. rewrite chars_rev_app. cbn. apply app_nil_r. Qed.

Lemma chars_inj s1 s2 :
  list_ascii_of_string s1 = list_ascii_of_string s2 → s1 = s2.
Proof.
  intros Heq. rewrite <- (string_of_list_ascii_of_string s1),
                     <- (string_of_list_ascii_of_string s2). by rewrite Heq.
Qed.

Lemma rev_rev s : String.rev (String.rev s) = s.
Proof. apply chars_inj. by rewrite !chars_rev, reverse_involutive. Qed.

Lemma lstrip_spec s :
  no_space_at_head (lstrip s) ∧
  ∃ spaces, list_ascii_of_string s = spaces ++ list_ascii_of_string (lstrip s).
Proof.
  induction s as [| c s [IH1 [spaces IH2]]]; [by split; [| exists []] |].
  cbn. destruct (is_space c) eqn:Hc.
  - split; [done |]. exists (c :: spaces). cbn. by rewrite IH2.
  - split; [done |]. by exists [].
Qed.

Lemma lstrip_fix s : no_space_at_head s → lstrip s = s.
Proof. destruct s as [| c s]; [done |]. cbn. by intros ->. Qed.

Lemma no_space_at_head_chars s :
  no_space_at_head s ↔
  match list_ascii_of_string s with [] => True | c :: _ => is_space c = false end.
Proof. by destruct s. Qed.

(** X21. [strip] leaves no white space at either end, changes nothing in
    a string that has none there, and so is idempotent: a name as
    [register] stores it is read back unchanged by [login]. *)
Theorem strip_spec s :
  no_space_at_head (strip s) ∧
  no_space_at_head (String.rev (strip s)) ∧
  (no_space_at_head s → no_space_at_head (String.rev s) → strip s = s) ∧
  strip (strip s) = strip s.
Proof.
  assert (∀ t, no_space_at_head t → no_space_at_head (String.rev t) → strip t = t)
    as Hfix.
  { intros t Hhead Hend. unfold strip.
    by rewrite (lstrip_fix t), (lstrip_fix (String.rev t)), rev_rev. }
  assert (no_space_at_head (strip s) ∧ no_space_at_head (String.rev (strip s)))
    as [Hhead Hend].
  { unfold strip. rewrite rev_rev.
    destruct (lstrip_spec s) as [Ht _].
    destruct (lstrip_spec (String.rev (lstrip s))) as [Hu [spaces Hsp]].
    split; [| done].
    set (t := lstrip s) in *. set (u := lstrip (String.rev t)) in *.
    rewrite chars_rev in Hsp.
    apply (f_equal reverse) in Hsp.
    rewrite reverse_involutive, reverse_app in Hsp.
    apply no_space_at_head_chars. rewrite chars_rev.
    apply no_space_at_head_chars in Ht. rewrite Hsp in Ht.
    destruct (reverse (list_ascii_of_string u)); [done | exact Ht]. }
  split_and!; [done | done | apply Hfix | by apply Hfix].
Qed.

Lemma strip_spec_witness : strip "alice" = "alice".
Proof.
  apply (strip_spec "alice"); reflexivity.
Defined.

Example strip_examples :
  strip "  alice " = "alice" ∧ strip "a b" = "a b" ∧ strip "   " = EmptyString.
Proof. split_and!; reflexivity. Qed.

(** ** Turns and the draw test *)

(** X22. The players alternate. After an accepted call that leaves the
    game in progress the turn is the other player's: the same player's
    next call is rejected whatever its indices, and the other player's
    call on an empty cell is accepted. *)
Theorem turns_alternate self slot row col self' sent :
  wf_board (TicTacToeGame.board self) →
  TicTacToeGame.make_move self (Some slot) row col = Ok (true, self', sent) →
  TicTacToeGame.winner self' = None →
  TicTacToeGame.current_player self' = 1 - slot ∧
  (∀ row2 col2,
     TicTacToeGame.make_move self' (Some slot) row2 col2 = Ok (false, self', [])) ∧
  (∀ row2 col2,
     TicTacToeGame.cell (TicTacToeGame.board self') row2 col2 = Ok TicTacToeGame.blank →
     ∃ self'' sent'',
       TicTacToeGame.make_move self' (Some (1 - slot)) row2 col2 = Ok (true, self'', sent'')).
Proof.
  intros Hwf Hmove Hw'.
  assert (slot = TicTacToeGame.current_player self) as ->.
  { destruct (proj1 (make_move_accepted_iff self (Some slot) row col Hwf)) as (_ & [= ->] & _);
      eauto. }
  destruct (make_move_step _ _ _ _ _ _ _ Hwf Hmove)
    as [(? & _) | (_ & Hw & b' & won & full & k & Hwf' & _ & _ & _ & _ & _ & ->)];
    [done |].
  unfold after_move in *. destruct won; [done |]. destruct full; [done |].
  cbn in *. split_and!.
  - done.
  - intros row2 col2. apply make_move_rejected. right. left.
    cbn. intros [= Heq]. lia.
  - intros row2 col2 Hcell.
    apply make_move_accepted_iff; [done |]. by split_and!.
Qed.

Lemma turns_alternate_witness :
  TicTacToeGame.make_move (play alice_bob_game [(Some 0, 1, 1)]).1 (Some 0) 7 7
  = Ok (false, (play alice_bob_game [(Some 0, 1, 1)]).1, []).
Proof.
  refine (proj1 (proj2 (turns_alternate alice_bob_game 0 1 1 _ [] _ _ _)) 7 7).
  - apply alice_bob_game_in_progress.
  - reflexivity.
  - reflexivity.
Defined.

Lemma filter_length_all {A} (P : A → Prop) `{!∀ x, Decision (P x)} (l : list A) :
  length (filter P l) = length l ↔ Forall P l.
Proof.
  induction l as [| x l IH]; [by split |].
  rewrite filter_cons, Forall_cons. pose proof (length_filter P l).
  destruct (decide (P x)); cbn [length].
  - rewrite <- IH. split; [intros [= ?]; done | intros [_ ->]; done].
  - split; [lia | tauto].
Qed.

(** X23. The draw test of [make_move] never raises on a three by three
    board, and holds exactly when no cell is empty: that is when the board
    has nine marks. *)
Theorem draw_test_exact b :
  wf_board b →
  ∃ full, TicTacToeGame.board_full b = Ok full ∧
          (full = true ↔ grid_full b) ∧ (full = true ↔ filled b = 9%nat).
Proof.
  intros Hwf. destruct (board_full_spec b Hwf) as (full & Hfull & Hiff).
  exists full. split; [done |]. split; [done |]. rewrite Hiff.
  destruct (wf_board_grid b Hwf) as (a0 & a1 & a2 & a3 & a4 & a5 & a6 & a7 & a8 & ->).
  rewrite grid_full_grid. unfold filled. rewrite cells_grid.
  change 9%nat with (length [a0; a1; a2; a3; a4; a5; a6; a7; a8]).
  rewrite filter_length_all, !Forall_cons, Forall_nil. tauto.
Qed.

Lemma draw_test_exact_witness :
  ∃ full, TicTacToeGame.board_full (TicTacToeGame.board alice_to_win) = Ok full ∧
          (full = true ↔ filled (TicTacToeGame.board alice_to_win) = 9%nat).
Proof.
  destruct (draw_test_exact (TicTacToeGame.board alice_to_win)) as (full & Hfull & _ & Hnine).
  - apply alice_to_win_in_progress.
  - exists full. split; [exact Hfull | exact Hnine].
Defined.
